(** * python-csv-converter: the CSV to JSON pipeline of [main.py]

    A shallow embedding of [main.py] and of the parts of the Python
    runtime it calls, followed by the properties of the pipeline.

    Python text is a sequence of Unicode code points, so [str] is a list
    of code points.  Code that can raise is written in the exception
    monad [Exc]; [try_except] is the [try: ... except Exception: ...]
    statement. *)

From Stdlib Require Import ZArith List String Ascii Lia Bool DecimalString.
From stdpp Require Import base tactics option list gmap.
Import ListNotations.

Local Open Scope Z_scope.

(** ** Text *)

Abbreviation char := Z (only parsing).
Abbreviation str := (list Z) (only parsing).

(** The code point of an ASCII character, and the text of an ASCII
    literal. *)
Definition chr (a : ascii) : char := Z.of_N (N_of_ascii a).
Definition lit (s : string) : str := map chr (list_ascii_of_string s).

Definition in_range (lo hi c : char) : bool := (lo <=? c) && (c <=? hi).

(** [str.isspace] for one code point: the set [str.strip()] removes. *)
Definition is_space (c : char) : bool :=
  in_range 9 13 c || in_range 28 32 c || (c =? 133) || (c =? 160) ||
  (c =? 5760) || in_range 8192 8202 c || (c =? 8232) || (c =? 8233) ||
  (c =? 8239) || (c =? 8287) || (c =? 12288).

Fixpoint lstrip (s : str) : str :=
  match s with
  | c :: s' => if is_space c then lstrip s' else s
  | [] => []
  end.

Definition rstrip (s : str) : str := rev (lstrip (rev s)).

(** [s.strip()] *)
Definition strip (s : str) : str := rstrip (lstrip s).

(** The code points of the digit zero of every decimal system of the
    Unicode database (category Nd); each is followed by its digits one to
    nine. *)
Definition decimal_zeros : list Z :=
  [48; 1632; 1776; 1984; 2406; 2534; 2662; 2790; 2918; 3046; 3174; 3302;
   3430; 3558; 3664; 3792; 3872; 4160; 4240; 6112; 6160; 6470; 6608; 6784;
   6800; 6992; 7088; 7232; 7248; 42528; 43216; 43264; 43472; 43504; 43600;
   44016; 65296; 66720; 68912; 69734; 69872; 69942; 70096; 70384; 70736;
   70864; 71248; 71360; 71472; 71904; 72016; 72784; 73040; 73120; 92768;
   92864; 93008; 120782; 120792; 120802; 120812; 120822; 123200; 123632;
   125264; 130032].

Fixpoint decimal_in (zeros : list Z) (c : char) : option Z :=
  match zeros with
  | z :: zeros' => if in_range z (z + 9) c then Some (c - z) else decimal_in zeros' c
  | [] => None
  end.

(** The decimal value of a code point, if it is a decimal digit: what
    [int] reads and what the pattern [\d] matches. *)
Definition todecimal (c : char) : option Z := decimal_in decimal_zeros c.

Definition is_decimal (c : char) : bool :=
  match todecimal c with Some _ => true | None => false end.

(** ** Exceptions *)

Inductive exn :=
| FileNotFoundError (msg : str)
| IsADirectoryError (msg : str)
| NotADirectoryError (msg : str)
| ImportError
| ValueError
| AttributeError
| CsvError (msg : str).

Inductive Exc (A : Type) :=
| Val (a : A)
| Raise (e : exn).
Arguments Val {A} a.
Arguments Raise {A} e.

Definition bind {A B} (m : Exc A) (k : A -> Exc B) : Exc B :=
  match m with
  | Val a => k a
  | Raise e => Raise e
  end.

Declare Scope exc_scope.
Delimit Scope exc_scope with exc.
Notation "'let*' x := m 'in' k" := (bind m (fun x => k))
  (at level 10, x pattern, m at level 100, k at level 200) : exc_scope.

(** [try: body except Exception: handler] *)
Definition try_except {A} (body : Exc A) (handler : exn -> Exc A) : Exc A :=
  match body with
  | Val a => Val a
  | Raise e => handler e
  end.

(** ** The interpreter *)

(** [sys.get_int_max_str_digits()]: the longest decimal numeral [int]
    converts, zero for no bound (4300 unless configured otherwise).
    Numerals of at most [str_digits_check_threshold] digits are always
    converted. *)
Class Interpreter := { int_max_str_digits : nat }.

Definition str_digits_check_threshold : nat := 640.

(** White space [int] skips around a numeral. *)
Definition int_space (c : char) : bool :=
  in_range 9 13 c || (c =? 32) || ((127 <? c) && is_space c).

Fixpoint int_lstrip (s : str) : str :=
  match s with
  | c :: s' => if int_space c then int_lstrip s' else s
  | [] => []
  end.

(** The digits of a numeral after its sign: decimal digits, with single
    underscores allowed between two digits.  Returns the value and the
    number of digits. *)
Fixpoint int_digits (s : str) (acc : Z) (count : nat) (after_digit : bool)
  : option (Z * nat) :=
  match s with
  | [] => if after_digit then Some (acc, count) else None
  | c :: s' =>
      match todecimal c with
      | Some v => int_digits s' (10 * acc + v) (S count) true
      | None =>
          if (c =? chr "_") && after_digit then int_digits s' acc count false
          else None
      end
  end.

Definition int_unsigned `{Interpreter} (s : str) : Exc Z :=
  match int_digits s 0 0%nat false with
  | Some (v, count) =>
      if (str_digits_check_threshold <? count)%nat
         && (0 <? int_max_str_digits)%nat
         && (int_max_str_digits <? count)%nat
      then Raise ValueError
      else Val v
  | None => Raise ValueError
  end.

(** [int(s)] for text [s], base ten. *)
Definition int_of_str `{Interpreter} (s : str) : Exc Z :=
  match rev (int_lstrip (rev (int_lstrip s))) with
  | c :: s' =>
      if c =? chr "+" then int_unsigned s'
      else if c =? chr "-" then (let* v := int_unsigned s' in Val (- v))%exc
      else int_unsigned (c :: s')
  | [] => Raise ValueError
  end.

(** ** Dates *)

Record date := Date { year : Z; month : Z; day : Z }.

Definition is_leap (y : Z) : bool :=
  (y mod 4 =? 0) && (negb (y mod 100 =? 0) || (y mod 400 =? 0)).

Definition days_in_month (y m : Z) : Z :=
  if m =? 2 then (if is_leap y then 29 else 28)
  else if (m =? 4) || (m =? 6) || (m =? 9) || (m =? 11) then 30
  else 31.

(** The fields of a date of the proleptic Gregorian calendar, years 1 to
    9999. *)
Definition valid_date (y m d : Z) : bool :=
  in_range 1 9999 y && in_range 1 12 m && in_range 1 (days_in_month y m) d.

(** [datetime.date(y, m, d)] *)
Definition date_new (y m d : Z) : Exc date :=
  if valid_date y m d then Val (Date y m d) else Raise ValueError.

(** The groups of the pattern [strptime] compiles from ["%d/%m/%Y"]:
    [(?P<d>3[0-1]|[1-2]\d|0[1-9]|[1-9]| [1-9])/(?P<m>1[0-2]|0[1-9]|[1-9])/(?P<Y>\d\d\d\d)].
    Each group gives its matches, captured text and remaining input, in
    the order the matcher tries its alternatives. *)
Definition is_chr (a : ascii) (c : char) : bool := c =? chr a.

Definition one (p : char -> bool) (s : str) : list (str * str) :=
  match s with
  | a :: r => if p a then [([a], r)] else []
  | _ => []
  end.

Definition two (p q : char -> bool) (s : str) : list (str * str) :=
  match s with
  | a :: b :: r => if p a && q b then [([a; b], r)] else []
  | _ => []
  end.

Definition group_d (s : str) : list (str * str) :=
  two (is_chr "3") (in_range (chr "0") (chr "1")) s ++
  two (in_range (chr "1") (chr "2")) is_decimal s ++
  two (is_chr "0") (in_range (chr "1") (chr "9")) s ++
  one (in_range (chr "1") (chr "9")) s ++
  two (is_chr " ") (in_range (chr "1") (chr "9")) s.

Definition group_m (s : str) : list (str * str) :=
  two (is_chr "1") (in_range (chr "0") (chr "2")) s ++
  two (is_chr "0") (in_range (chr "1") (chr "9")) s ++
  one (in_range (chr "1") (chr "9")) s.

Definition group_Y (s : str) : list (str * str) :=
  match s with
  | a :: b :: c :: d :: r =>
      if is_decimal a && is_decimal b && is_decimal c && is_decimal d
      then [([a; b; c; d], r)] else []
  | _ => []
  end.

Definition slash (s : str) : list str :=
  match s with
  | c :: r => if c =? chr "/" then [r] else []
  | [] => []
  end.

(** The matches of the pattern at the start of [s] in the order
    backtracking finds them, group after group: the three captured texts
    and the input left after the match. *)
Definition match_Y (d m s : str) : list (str * str * str * str) :=
  flat_map (fun '(y, r) => [(d, m, y, r)]) (group_Y s).

Definition match_m (d s : str) : list (str * str * str * str) :=
  flat_map (fun '(m, r) => flat_map (match_Y d m) (slash r)) (group_m s).

Definition match_d (s : str) : list (str * str * str * str) :=
  flat_map (fun '(d, r) => flat_map (match_m d) (slash r)) (group_d s).

(** [format_regex.match(s)]: the first match. *)
Definition format_regex_match (s : str) : option (str * str * str * str) :=
  head (match_d s).

(** [datetime.strptime(s, CSV_DATE_FORMAT).date()], with
    [CSV_DATE_FORMAT = "%d/%m/%Y"]. *)
Definition strptime `{Interpreter} (s : str) : Exc date :=
  match format_regex_match s with
  | None => Raise ValueError
  | Some (d, m, y, rest) =>
      match rest with
      | _ :: _ => Raise ValueError
      | [] =>
          (let* dd := int_of_str d in
           let* mm := int_of_str m in
           let* yy := int_of_str y in
           date_new yy mm dd)%exc
      end
  end.

Definition digit_chr (v : Z) : char := chr "0" + v.

(** A number below one hundred in two digits, below ten thousand in four. *)
Definition pad2 (n : Z) : str := [digit_chr (n / 10); digit_chr (n mod 10)].
Definition pad4 (n : Z) : str :=
  [digit_chr (n / 1000); digit_chr (n / 100 mod 10);
   digit_chr (n / 10 mod 10); digit_chr (n mod 10)].

(** [d.strftime(CSV_DATE_FORMAT)]: day and month in two digits, the year
    with century in four, as the library reference gives [%d], [%m] and
    [%Y].  (The C library prints the year; those that leave years below
    1000 unpadded are not modelled.) *)
Definition strftime (d : date) : str :=
  pad2 (day d) ++ lit "/" ++ pad2 (month d) ++ lit "/" ++ pad4 (year d).

(** ** [main.py]: field parsers *)

Section Parsers.
Context `{Interpreter}.

(** [[
def parse_int(value: str, default: int = 0) -> int:
    try:
        value = (value or "").strip()
        return int(value) if value != "" else default
    except Exception:
        return default
]] *)
Definition parse_int (value : str) (default : Z) : Exc Z :=
  try_except
    (let value := strip value in
     match value with
     | [] => Val default
     | _ => int_of_str value
     end)
    (fun _ => Val default).

(** [[
def parse_date_ddmmyyyy(value: str) -> str:
    value = (value or "").strip()
    if not value:
        return ""
    try:
        d = datetime.strptime(value, CSV_DATE_FORMAT).date()
        return d.strftime(CSV_DATE_FORMAT)
    except Exception:
        return ""
]] *)
Definition parse_date_ddmmyyyy (value : str) : Exc str :=
  let value := strip value in
  match value with
  | [] => Val []
  | _ =>
      try_except
        (let* d := strptime value in Val (strftime d))%exc
        (fun _ => Val [])
  end.

End Parsers.

#[global] Instance cpython_default : Interpreter := {| int_max_str_digits := 4300 |}.

(** ** The [csv] module *)

(** The lines a text file opened with [newline=""] iterates over: split
    after ["\n"], ["\r"] or ["\r\n"], line ends kept. *)
Fixpoint readlines (s : str) (cur : str) : list str :=
  match s with
  | [] => match cur with [] => [] | _ => [cur] end
  | c :: s' =>
      if c =? 10 then (cur ++ [c]) :: readlines s' []
      else if c =? 13 then
        match s' with
        | c' :: s'' =>
            if c' =? 10 then (cur ++ [c; c']) :: readlines s'' []
            else (cur ++ [c]) :: readlines s' []
        | [] => [cur ++ [c]]
        end
      else readlines s' (cur ++ [c])
  end.

(** The parser of [csv.reader] for the dialect the script uses: [excel]
    with the delimiter replaced (fields quoted by the double quote, which
    is doubled inside them, no escape character, not strict). *)
Inductive parser_state :=
| START_RECORD | START_FIELD | IN_FIELD
| IN_QUOTED_FIELD | QUOTE_IN_QUOTED_FIELD | EAT_CRNL.

Record reader := Reader {
  state : parser_state;
  fields : list (list Z);
  field : list Z
}.

Definition parse_reset : reader := Reader START_RECORD [] [].

(** [csv.field_size_limit()] *)
Definition field_limit : Z := 131072.

Definition set_state (st : parser_state) (r : reader) : reader :=
  Reader st (fields r) (field r).

Definition parse_save_field (r : reader) : reader :=
  Reader (state r) (fields r ++ [field r]) [].

Definition parse_add_char (c : char) (r : reader) : Exc reader :=
  if field_limit <=? Z.of_nat (length (field r))
  then Raise (CsvError (lit "field larger than field limit (131072)"))
  else Val (Reader (state r) (fields r) (field r ++ [c])).

Definition is_newline (c : char) : bool := (c =? 10) || (c =? 13).

Definition quotechar : char := 34.

(** One step of the parser; [None] is the end of a line. *)
Definition parse_process_char (delimiter : char) (r : reader) (c : option char)
  : Exc reader :=
  let start_field (r : reader) :=
    match c with
    | None => Val (set_state START_RECORD (parse_save_field r))
    | Some ch =>
        if is_newline ch then Val (set_state EAT_CRNL (parse_save_field r))
        else if ch =? quotechar then Val (set_state IN_QUOTED_FIELD r)
        else if ch =? delimiter then Val (parse_save_field r)
        else (let* r := parse_add_char ch r in Val (set_state IN_FIELD r))%exc
    end in
  match state r with
  | START_RECORD =>
      match c with
      | None => Val r
      | Some ch =>
          if is_newline ch then Val (set_state EAT_CRNL r)
          else start_field (set_state START_FIELD r)
      end
  | START_FIELD => start_field r
  | IN_FIELD =>
      match c with
      | None => Val (set_state START_RECORD (parse_save_field r))
      | Some ch =>
          if is_newline ch then Val (set_state EAT_CRNL (parse_save_field r))
          else if ch =? delimiter then Val (set_state START_FIELD (parse_save_field r))
          else parse_add_char ch r
      end
  | IN_QUOTED_FIELD =>
      match c with
      | None => Val r
      | Some ch =>
          if ch =? quotechar then Val (set_state QUOTE_IN_QUOTED_FIELD r)
          else parse_add_char ch r
      end
  | QUOTE_IN_QUOTED_FIELD =>
      match c with
      | None => Val (set_state START_RECORD (parse_save_field r))
      | Some ch =>
          if ch =? quotechar then
            (let* r := parse_add_char ch r in Val (set_state IN_QUOTED_FIELD r))%exc
          else if ch =? delimiter then Val (set_state START_FIELD (parse_save_field r))
          else if is_newline ch then Val (set_state EAT_CRNL (parse_save_field r))
          else (let* r := parse_add_char ch r in Val (set_state IN_FIELD r))%exc
      end
  | EAT_CRNL =>
      match c with
      | None => Val (set_state START_RECORD r)
      | Some ch =>
          if is_newline ch then Val r
          else Raise (CsvError (lit "new-line character seen in unquoted field - do you need to open the file with newline=''?"))
      end
  end.

Fixpoint parse_line (delimiter : char) (r : reader) (line : str) : Exc reader :=
  match line with
  | [] => parse_process_char delimiter r None
  | c :: line' =>
      (let* r := parse_process_char delimiter r (Some c) in
       parse_line delimiter r line')%exc
  end.

(** The rows [csv.reader] yields from the lines, in order, and the
    exception that ends the iteration, if one does. *)
Fixpoint reader_rows (delimiter : char) (lines : list (list Z)) (r : reader)
  : list (list (list Z)) * option exn :=
  match lines with
  | [] =>
      match field r, state r with
      | [], START_RECORD | [], START_FIELD | [], IN_FIELD
      | [], QUOTE_IN_QUOTED_FIELD | [], EAT_CRNL => ([], None)
      | _, _ => ([fields (parse_save_field r)], None)
      end
  | line :: lines' =>
      match parse_line delimiter r line with
      | Raise e => ([], Some e)
      | Val r' =>
          match state r' with
          | START_RECORD =>
              let '(rows, err) := reader_rows delimiter lines' parse_reset in
              (fields r' :: rows, err)
          | _ => reader_rows delimiter lines' r'
          end
      end
  end.

(** [csv.reader(f, delimiter=delimiter)] over a file holding [text]. *)
Definition csv_reader (text : str) (delimiter : char)
  : list (list (list Z)) * option exn :=
  reader_rows delimiter (readlines text []) parse_reset.

(** Python dictionaries keep insertion order: association lists with one
    entry for a key. *)
Section Dict.
Context {K V : Type} `{EqDecision K}.

Fixpoint dict_set (k : K) (v : V) (d : list (K * V)) : list (K * V) :=
  match d with
  | [] => [(k, v)]
  | (k', v') :: d' =>
      if decide (k = k') then (k, v) :: d' else (k', v') :: dict_set k v d'
  end.

Fixpoint dict_get (k : K) (d : list (K * V)) : option V :=
  match d with
  | [] => None
  | (k', v') :: d' => if decide (k = k') then Some v' else dict_get k d'
  end.

End Dict.

(** A row of [csv.DictReader]: column names map to text, to [None] where
    the line is short ([restval]); the key [None] ([restkey]) holds the
    fields beyond the header. *)
Inductive cell := CStr (s : list Z) | CNone | CList (l : list (list Z)).

Abbreviation row := (list (option (list Z) * cell)) (only parsing).

Definition dict_row (fieldnames : list (list Z)) (r : list (list Z)) : row :=
  let d := fold_left (fun d '(k, v) => dict_set (Some k) (CStr v) d)
                     (combine fieldnames r) [] in
  let lf := length fieldnames in
  let lr := length r in
  if (lf <? lr)%nat then dict_set None (CList (drop lf r)) d
  else if (lr <? lf)%nat then
    fold_left (fun d k => dict_set (Some k) CNone d) (drop lr fieldnames) d
  else d.

Definition nonblank (r : list (list Z)) : bool :=
  match r with [] => false | _ => true end.

(** [csv.DictReader(f, delimiter=delimiter)]: the first row names the
    columns, blank rows are skipped. *)
Definition DictReader (text : str) (delimiter : char) : list row * option exn :=
  let '(rows, err) := csv_reader text delimiter in
  match rows with
  | [] => ([], err)
  | fieldnames :: data => (map (dict_row fieldnames) (List.filter nonblank data), err)
  end.

(** [csv.Sniffer().sniff(sample, delimiters)] followed by [.delimiter].
    The heuristics of the sniffer are not modelled; what is used of them
    is that a delimiter it reports is one of the candidates it was
    given. *)
Class Sniffer := {
  sniff : list Z -> list Z -> Exc Z;
  sniff_restricted :
    forall sample delimiters d, sniff sample delimiters = Val d -> In d delimiters
}.

(** ** The world the script runs in *)

(** A file holds text (files are UTF-8 text, read and written whole). *)
Inductive node := File (text : list Z) | Dir.

(** The file system maps the paths that resolve to what they name;
    [stdout] holds the lines printed.  [bson] is the generator of
    [bson.objectid.ObjectId] where that package is installed, [entropy]
    the bytes of the system's random source; the two counters record how
    much of each was used. *)
Record world := World {
  fs : gmap (list Z) node;
  stdout : list (list Z);
  bson : option (nat -> list Z);
  entropy : nat -> Z;
  oid_count : nat;
  entropy_pos : nat
}.

(** Statements: they change the world and return or raise. *)
Definition IO (A : Type) : Type := world -> Exc A * world.

Definition ret {A} (a : A) : IO A := fun w => (Val a, w).
Definition raise {A} (e : exn) : IO A := fun w => (Raise e, w).
Definition lift {A} (m : Exc A) : IO A := fun w => (m, w).

Definition io_bind {A B} (m : IO A) (k : A -> IO B) : IO B :=
  fun w =>
    match m w with
    | (Val a, w') => k a w'
    | (Raise e, w') => (Raise e, w')
    end.

Declare Scope io_scope.
Delimit Scope io_scope with io.
Notation "'let*' x := m 'in' k" := (io_bind m (fun x => k))
  (at level 10, x pattern, m at level 100, k at level 200) : io_scope.

Definition try_io {A} (body : IO A) (handler : exn -> IO A) : IO A :=
  fun w =>
    match body w with
    | (Val a, w') => (Val a, w')
    | (Raise e, w') => handler e w'
    end.

Definition set_fs (f : gmap (list Z) node) (w : world) : world :=
  World f (stdout w) (bson w) (entropy w) (oid_count w) (entropy_pos w).

Definition add_stdout (lines : list (list Z)) (w : world) : world :=
  World (fs w) (stdout w ++ lines) (bson w) (entropy w) (oid_count w) (entropy_pos w).

(** [print(line)] *)
Definition print (line : str) : IO unit := fun w => (Val tt, add_stdout [line] w).

(** The text of an exception, as [print(e)] shows it. *)
Definition exn_str (e : exn) : str :=
  match e with
  | FileNotFoundError msg | IsADirectoryError msg | NotADirectoryError msg
  | CsvError msg => msg
  | ImportError | ValueError | AttributeError => []
  end.

Definition os_error (what : string) (path : str) : str :=
  lit what ++ lit ": '" ++ path ++ lit "'".

Definition ENOENT (path : str) : exn :=
  FileNotFoundError (os_error "[Errno 2] No such file or directory" path).
Definition EISDIR (path : str) : exn :=
  IsADirectoryError (os_error "[Errno 21] Is a directory" path).
Definition ENOTDIR (path : str) : exn :=
  NotADirectoryError (os_error "[Errno 20] Not a directory" path).

Fixpoint split_on (sep : char) (s : str) (cur : str) : list (list Z) :=
  match s with
  | [] => [cur]
  | c :: s' =>
      if c =? sep then cur :: split_on sep s' [] else split_on sep s' (cur ++ [c])
  end.

Fixpoint join (sep : str) (l : list (list Z)) : str :=
  match l with
  | [] => []
  | [x] => x
  | x :: l' => x ++ sep ++ join sep l'
  end.

(** [str(Path(p))]: repeated slashes, [.] components and a final slash
    are dropped; the empty path is the current directory. *)
Definition Path (p : str) : str :=
  let root :=
    match p with
    | a :: b :: c :: _ =>
        if (a =? chr "/") && (b =? chr "/") && negb (c =? chr "/") then lit "//"
        else if a =? chr "/" then lit "/" else []
    | [a; b] =>
        if (a =? chr "/") && (b =? chr "/") then lit "//"
        else if a =? chr "/" then lit "/" else []
    | [a] => if a =? chr "/" then lit "/" else []
    | [] => []
    end in
  let parts :=
    List.filter (fun x => negb (bool_decide (x = []) || bool_decide (x = lit ".")))
           (split_on (chr "/") p []) in
  match root ++ join (lit "/") parts with
  | [] => lit "."
  | s => s
  end.

(** [path.exists()] *)
Definition path_exists (path : str) : IO bool :=
  fun w => (Val (match fs w !! path with Some _ => true | None => false end), w).

(** [path.open(newline="", encoding="utf-8")] and reading the file. *)
Definition open_read (path : str) : IO str :=
  fun w =>
    match fs w !! path with
    | Some (File text) => (Val text, w)
    | Some Dir => (Raise (EISDIR path), w)
    | None => (Raise (ENOENT path), w)
    end.

(** The directory part and the name of a path: the text before and after
    its last slash ([None] when it has no slash). *)
Definition dirname (path : str) : option (list Z) :=
  match rev (split_on (chr "/") path []) with
  | _ :: rparts => match rparts with [] => None | _ => Some (join (lit "/") (rev rparts)) end
  | [] => None
  end.

Definition basename (path : str) : str :=
  match rev (split_on (chr "/") path []) with
  | name :: _ => name
  | [] => []
  end.

(** Why [open(path, "w")] fails, if it does.  A new file needs its
    directory: a path without a slash is created in the current
    directory, a path under the root in the root. *)
Definition create_error (files : gmap (list Z) node) (path : str) : option exn :=
  match path with
  | [] => Some (ENOENT path)
  | _ =>
      match files !! path with
      | Some (File _) => None
      | Some Dir => Some (EISDIR path)
      | None =>
          match basename path with
          | [] => Some (EISDIR path)
          | _ =>
              match dirname path with
              | None | Some [] => None
              | Some dir =>
                  match files !! dir with
                  | Some Dir => None
                  | Some (File _) => Some (ENOTDIR path)
                  | None => Some (ENOENT path)
                  end
              end
          end
      end
  end.

(** [open(path, "w", encoding="utf-8")], writing [text] and closing the
    file. *)
Definition open_write (path text : str) : IO unit :=
  fun w =>
    match create_error (fs w) path with
    | Some e => (Raise e, w)
    | None => (Val tt, set_fs (<[path := File text]> (fs w)) w)
    end.

Definition hex_digit (v : Z) : char := if v <? 10 then chr "0" + v else chr "a" + (v - 10).
Definition hex2 (b : Z) : str := [hex_digit (b / 16 mod 16); hex_digit (b mod 16)].

(** [secrets.token_hex(n)] *)
Definition token_hex (n : nat) : IO str :=
  fun w =>
    (Val (flat_map (fun i => hex2 (entropy w (entropy_pos w + i)%nat)) (seq 0 n)),
     World (fs w) (stdout w) (bson w) (entropy w) (oid_count w) (entropy_pos w + n)%nat).

(** [from bson.objectid import ObjectId] and [str(ObjectId())] *)
Definition bson_ObjectId : IO str :=
  fun w =>
    match bson w with
    | Some gen =>
        (Val (gen (oid_count w)),
         World (fs w) (stdout w) (bson w) (entropy w) (S (oid_count w)) (entropy_pos w))
    | None => (Raise ImportError, w)
    end.

(** The decimal text of an integer. *)
Definition decimal (n : Z) : str := lit (DecimalString.NilZero.string_of_int (Z.to_int n)).

(** ** [json.dump] *)

(** Python values held by the dictionaries of the script. *)
Inductive pyval := PStr (s : list Z) | PInt (n : Z).

Abbreviation doc := (list (list Z * pyval)) (only parsing).

(** With [ensure_ascii=False] only the double quote, the backslash and
    the control characters are escaped. *)
Definition json_escape (c : char) : str :=
  if c =? 34 then [92; 34]
  else if c =? 92 then [92; 92]
  else if c =? 10 then 92 :: lit "n"
  else if c =? 13 then 92 :: lit "r"
  else if c =? 9 then 92 :: lit "t"
  else if c =? 8 then 92 :: lit "b"
  else if c =? 12 then 92 :: lit "f"
  else if in_range 0 31 c then 92 :: lit "u00" ++ hex2 c
  else [c].

Definition json_string (s : str) : str := [34] ++ flat_map json_escape s ++ [34].

Definition json_value (v : pyval) : str :=
  match v with
  | PStr s => json_string s
  | PInt n => decimal n
  end.

Definition json_member (kv : list Z * pyval) : str :=
  json_string (fst kv) ++ lit ": " ++ json_value (snd kv).

(** An object inside the top-level array, [indent=2]. *)
Definition json_object (d : doc) : str :=
  match d with
  | [] => lit "{}"
  | _ =>
      lit "{" ++ [10] ++ lit "    " ++
      join (lit "," ++ [10] ++ lit "    ") (map json_member d) ++
      [10] ++ lit "  }"
  end.

(** [json.dumps(lista, ensure_ascii=False, indent=2)] for a list of
    dictionaries. *)
Definition json_dumps (lista : list doc) : str :=
  match lista with
  | [] => lit "[]"
  | _ =>
      lit "[" ++ [10] ++ lit "  " ++
      join (lit "," ++ [10] ++ lit "  ") (map json_object lista) ++
      [10] ++ lit "]"
  end.

(** ** [main.py]: the pipeline *)

Definition DEFAULT_CLASS : str := lit "com.br.td.utfpr.edu.tsi.cadastro_usuarios.model".

(** The lines the script prints:
    [f"Arquivo não encontrado: {caminho_csv}"],
    [f"Extração CSV concluída ({len(boletins)} registros)."] and
    [f"Carregamento JSON concluído -> {output}"]. *)
Definition not_found (caminho_csv : str) : str :=
  lit "Arquivo n" ++ [227] ++ lit "o encontrado: " ++ caminho_csv.

Definition extracted (n : nat) : str :=
  lit "Extra" ++ [231; 227] ++ lit "o CSV conclu" ++ [237] ++
  lit "da (" ++ decimal (Z.of_nat n) ++ lit " registros).".

Definition written (output : str) : str :=
  lit "Carregamento JSON conclu" ++ [237] ++ lit "do -> " ++ output.

(** [[
def make_objectid_hex() -> str:
    try:
        from bson.objectid import ObjectId
        return str(ObjectId())
    except Exception:
        return secrets.token_hex(12)
]] *)
Definition make_objectid_hex : IO str :=
  try_io bson_ObjectId (fun _ => token_hex 12).

(** [get = lambda k: (row.get(k) or "").strip()] *)
Definition get (r : row) (k : str) : Exc str :=
  match dict_get (Some k) r with
  | Some (CStr s) => Val (strip s)
  | Some CNone | None | Some (CList []) => Val (strip [])
  | Some (CList (_ :: _)) => Raise AttributeError
  end.

(** [d.get(k, "")] on a dictionary of values. *)
Definition dict_get_default (k : str) (d : doc) : pyval :=
  match dict_get k d with
  | Some v => v
  | None => PStr []
  end.

Section Pipeline.
Context `{Interpreter} `{Sniffer}.

(** The dictionary [local] of the loop body. *)
Definition local_of (r : row) : Exc doc :=
  (let* cedente := get r (lit "cedente") in
   let* pagador := get r (lit "pagador") in
   let* valor := get r (lit "valor") in
   let* logradouro := get r [] in
   let* valor' := get r (lit "valor") in
   let* numero := parse_int valor' 0 in
   Val [(lit "cedente", PStr cedente);
        (lit "pagador", PStr pagador);
        (lit "valor", PStr valor);
        (lit "logradouro", PStr logradouro);
        (lit "numero", PInt numero)])%exc.

(** The body of the loop of [carregar]: the document of one row.
    [[
    data_str = parse_date_ddmmyyyy(get("vencimento"))
    local = { ... }
    oid_hex = make_objectid_hex()
    doc = {"cedente": local.get("cedente", ""), "pagador": local.get("pagador", ""),
           "valor": local.get("valor", ""), "vencimento": data_str}
    ]] *)
Definition carregar_row (r : row) : IO doc :=
  (let* data_str := lift (let* v := get r (lit "vencimento") in parse_date_ddmmyyyy v)%exc in
   let* local := lift (local_of r) in
   let* oid_hex := make_objectid_hex in
   ret [(lit "cedente", dict_get_default (lit "cedente") local);
        (lit "pagador", dict_get_default (lit "pagador") local);
        (lit "valor", dict_get_default (lit "valor") local);
        (lit "vencimento", PStr data_str)])%io.

(** [for row in reader: ...; boletins.append(doc)] *)
Fixpoint carregar_rows (rows : list row) (boletins : list doc) : IO (list doc) :=
  match rows with
  | [] => ret boletins
  | r :: rows' =>
      (let* d := carregar_row r in carregar_rows rows' (boletins ++ [d]))%io
  end.

Definition candidates : list Z := [chr ","; chr ";"; 9; chr "|"].

(** [[
delimiter = "\t"
try:
    sniffed = csv.Sniffer().sniff(sample, delimiters=[",", ";", "\t", "|"])
    delimiter = sniffed.delimiter
except Exception:
    delimiter = "\t"
]] *)
Definition sniff_delimiter (sample : str) : Exc Z :=
  try_except (sniff sample candidates) (fun _ => Val 9).

(** [carregar(caminho_csv, class_name)] *)
Definition carregar (caminho_csv class_name : str) : IO (list doc) :=
  (let path := Path caminho_csv in
   let* found := path_exists path in
   if negb found
   then raise (FileNotFoundError (not_found caminho_csv))
   else
     let* text := open_read path in
     let sample := take 2048 text in
     let* delimiter := lift (sniff_delimiter sample) in
     let '(rows, err) := DictReader text delimiter in
     let* boletins := carregar_rows rows [] in
     match err with
     | Some e => raise e
     | None =>
         let* _ := print (extracted (length boletins)) in
         ret boletins
     end)%io.

(** [carregar_json(lista, output)] *)
Definition carregar_json (lista : list doc) (output : str) : IO unit :=
  (let* _ := open_write output (json_dumps lista) in
   print (written output))%io.

(** [[
    try:
        lista = carregar(input_csv, class_name=class_name)
        carregar_json(lista, output_json)
    except FileNotFoundError as e:
        print(e)
        return 2
    except Exception as e:
        print("Erro:", e)
        return 3
    return 0
]] *)
Definition run (input_csv output_json class_name : str) : IO Z :=
  try_io
    (let* lista := carregar input_csv class_name in
     let* _ := carregar_json lista output_json in
     ret 0)%io
    (fun e =>
       match e with
       | FileNotFoundError _ => (let* _ := print (exn_str e) in ret 2)%io
       | _ => (let* _ := print (lit "Erro: " ++ exn_str e) in ret 3)%io
       end).

Definition usage : list (list Z) :=
  [lit "Uso: python carregar_boletins.py [input.csv output.json [class_name]]";
   lit "Se n" ++ [227] ++ lit "o informado usa: input='furtos.csv' output='furtos.json'"].

(** [main(argv)]: the exit code. *)
Definition main (argv : list (list Z)) : IO Z :=
  match argv with
  | [_] => run (lit "furtos.csv") (lit "furtos.json") DEFAULT_CLASS
  | [_; input_csv; output_json] => run input_csv output_json DEFAULT_CLASS
  | [_; input_csv; output_json; class_name] => run input_csv output_json class_name
  | _ =>
      (let* _ := print (nth 0 usage []) in
       let* _ := print (nth 1 usage []) in
       ret 1)%io
  end.

End Pipeline.

(** ** Running the pipeline *)

(** A sniffer to run examples with: the first candidate that occurs in
    the sample, and [csv.Error] when none does. *)
Definition occurs_sniff (sample : str) (delimiters : list Z) : Exc Z :=
  match List.filter (fun d => existsb (Z.eqb d) sample) delimiters with
  | d :: _ => Val d
  | [] => Raise (CsvError (lit "Could not determine delimiter"))
  end.

#[global, refine] Instance occurs_sniffer : Sniffer := {| sniff := occurs_sniff |}.
Proof.
  intros sample delimiters d. unfold occurs_sniff.
  destruct (List.filter _ delimiters) as [|d' l] eqn:E; [discriminate|].
  intros [= <-].
  assert (Hin : In d' (List.filter (fun d => existsb (Z.eqb d) sample) delimiters))
    by (rewrite E; left; reflexivity).
  apply filter_In in Hin. tauto.
Defined.

(** A world with the given files, no [bson] package and a fixed random
    source. *)
Definition world_of (files : gmap (list Z) node) : world :=
  World files [] None (fun i => Z.of_nat i) 0 0.

(** A file of one record, and worlds around it. *)
Definition sample_text : list Z :=
  lit "cedente;pagador;valor;vencimento" ++ [10] ++
  lit "Empresa A;Cliente B;150.00;15/03/2024" ++ [10].

Definition sample_world : world := world_of {[ lit "in.csv" := File sample_text ]}.

(** A text between double quotes. *)
Definition quoted (s : string) : list Z := [34] ++ lit s ++ [34].

(** The same files with the [bson] package installed and another random
    source, part of which is used. *)
Definition other_world : world :=
  World {[ lit "in.csv" := File sample_text ]} [] (Some (fun _ => lit "65f0a1b2c3d4e5f601234567"))
        (fun _ => 255) 7 40.

(** ** Vocabulary of the properties *)

(** The digits [0] to [9] of ASCII. *)
Definition ascii_digit (c : Z) : bool := in_range 48 57 c.

(** The number a list of ASCII digits denotes. *)
Definition decimal_value (ds : list Z) : Z :=
  fold_left (fun acc c => 10 * acc + (c - 48)) ds 0.

(** The number a signed numeral denotes. *)
Definition signed (sign : list Z) (n : Z) : Z :=
  if bool_decide (sign = lit "-") then - n else n.

(** A numeral of [n] digits is within what [int] converts. *)
Definition within_limit `{Interpreter} (n : nat) : Prop :=
  (n <= str_digits_check_threshold \/ int_max_str_digits = 0 \/ n <= int_max_str_digits)%nat.

(** The pattern DD/MM/YYYY as the spec words it: two digits, two digits
    and four digits between slashes. *)
Definition matches_ddmmyyyy (s : list Z) : bool :=
  match s with
  | [d1; d2; s1; m1; m2; s2; y1; y2; y3; y4] =>
      forallb ascii_digit [d1; d2; m1; m2; y1; y2; y3; y4] && (s1 =? 47) && (s2 =? 47)
  | _ => false
  end.

(** A zero-padded date of the calendar written DD/MM/YYYY. *)
Definition is_padded_date (s : list Z) : bool :=
  match s with
  | [d1; d2; _; m1; m2; _; y1; y2; y3; y4] =>
      matches_ddmmyyyy s &&
      valid_date (decimal_value [y1; y2; y3; y4]) (decimal_value [m1; m2])
                 (decimal_value [d1; d2])
  | _ => false
  end.


(** In a row of [DictReader] a column name never holds a list: lists sit
    under the key [None] only. *)
Definition cell_ok (kv : option (list Z) * cell) : Prop :=
  match kv with
  | (Some _, CList _) => False
  | _ => True
  end.

Definition row_ok (r : list (option (list Z) * cell)) : Prop := Forall cell_ok r.

(** Two worlds with the same files and the same output. *)
Definition same_files (w w' : world) : Prop := fs w' = fs w /\ stdout w' = stdout w.

(** The document of a row: its four members. *)
Definition document (c p v s : list Z) : list (list Z * pyval) :=
  [(lit "cedente", PStr c); (lit "pagador", PStr p);
   (lit "valor", PStr v); (lit "vencimento", PStr s)].

(** The keys of every document. *)
Definition document_keys : list (list Z) :=
  [lit "cedente"; lit "pagador"; lit "valor"; lit "vencimento"].

Definition is_string (v : pyval) : bool :=
  match v with PStr _ => true | PInt _ => false end.

(** What the documents are made of. *)
Definition document_ok (d : list (list Z * pyval)) : Prop :=
  map fst d = document_keys /\
  forallb is_string (map snd d) = true /\
  dict_get (lit "_id") d = None /\
  dict_get (lit "_class") d = None.

(** The input and output paths [main] takes from its arguments. *)
Definition arguments (argv : list (list Z)) : option (list Z * list Z) :=
  match argv with
  | [_] => Some (lit "furtos.csv", lit "furtos.json")
  | [_; input_csv; output_json] => Some (input_csv, output_json)
  | [_; input_csv; output_json; _] => Some (input_csv, output_json)
  | _ => None
  end.

Definition is_csv_error (e : exn) : Prop := exists msg, e = CsvError msg.

(** A line ends at its first line end: after a ["\r"] or ["\n"] only
    such characters follow. *)
Fixpoint line_ok (line : list Z) : Prop :=
  match line with
  | [] => True
  | c :: line' =>
      if is_newline c then Forall (fun x => is_newline x = true) line'
      else line_ok line'
  end.

(** The exit code [main] gives an exception. *)
Definition exit_code (e : exn) : Z :=
  match e with FileNotFoundError _ => 2 | _ => 3 end.

(** The line [main] prints for an exception. *)
Definition error_line (e : exn) : list Z :=
  match e with
  | FileNotFoundError _ => exn_str e
  | _ => lit "Erro: " ++ exn_str e
  end.

Section Vocabulary.
Context `{Sniffer}.

(** The delimiter [carregar] reads the file with. *)
Definition delimiter_of (text : list Z) : Z :=
  match sniff_delimiter (take 2048 text) with
  | Val d => d
  | Raise _ => 9
  end.

(** The data rows of a file: the rows of [csv.reader] after the header
    that are not blank lines. *)
Definition data_rows (text : list Z) : list (list (list Z)) :=
  List.filter nonblank (tail (fst (csv_reader text (delimiter_of text)))).

(** The input is a file the reader goes through without failing. *)
Definition readable (files : gmap (list Z) node) (input_csv : list Z) : Prop :=
  exists text, files !! Path input_csv = Some (File text) /\
               snd (DictReader text (delimiter_of text)) = None.

End Vocabulary.

(** ** Vocabulary: identifiers, columns and values *)

(** A lower-case hexadecimal digit. *)
Definition is_hex (c : Z) : bool := in_range 48 57 c || in_range 97 102 c.

(** [n] identifiers were drawn between the worlds [w] and [w']: from the
    [bson] generator where the package is installed, from the random
    source, twelve bytes each, where it is not. *)
Definition drawn (n : nat) (w w' : world) : Prop :=
  bson w' = bson w /\ entropy w' = entropy w /\
  match bson w with
  | Some _ => oid_count w' = (oid_count w + n)%nat /\ entropy_pos w' = entropy_pos w
  | None => entropy_pos w' = (entropy_pos w + 12 * n)%nat /\ oid_count w' = oid_count w
  end.

(** The cell a row of [DictReader] holds for the column named [k]: the
    one of the last column of that name, [None] where the row ends before
    it. *)
Fixpoint column_cell (k : list Z) (fieldnames fields : list (list Z)) : option cell :=
  match fieldnames with
  | [] => None
  | name :: fieldnames' =>
      match column_cell k fieldnames' (tail fields) with
      | Some c => Some c
      | None =>
          if bool_decide (k = name)
          then Some (match fields with f :: _ => CStr f | [] => CNone end)
          else None
      end
  end.

(** The text of a row under the column named [k]: the field at the
    position of the last column of that name, empty when the header has no
    such column or the row ends before it. *)
Definition column (k : list Z) (fieldnames fields : list (list Z)) : list Z :=
  match column_cell k fieldnames fields with
  | Some (CStr s) => s
  | _ => []
  end.

(** A value of a document that is a text with no white space at its
    ends. *)
Definition trimmed (v : pyval) : Prop :=
  match v with
  | PStr s => strip s = s
  | PInt _ => False
  end.

Section RowDocument.
Context `{Interpreter}.

(** The document of a row under a header. *)
Definition row_document (fieldnames fields : list (list Z)) : list (list Z * pyval) :=
  document (strip (column (lit "cedente") fieldnames fields))
           (strip (column (lit "pagador") fieldnames fields))
           (strip (column (lit "valor") fieldnames fields))
           (match parse_date_ddmmyyyy (column (lit "vencimento") fieldnames fields) with
            | Val s => s
            | Raise _ => []
            end).

(** The documents of the rows of a file: the first row is the header,
    blank rows are skipped. *)
Definition documents_of (rows : list (list (list Z))) : list (list (list Z * pyval)) :=
  match rows with
  | [] => []
  | fieldnames :: data => map (row_document fieldnames) (List.filter nonblank data)
  end.

End RowDocument.


(** ** Vocabulary: files as they are written *)

(** A field written without quotes holds no delimiter, no quote and no
    line end. *)
Definition plain (delimiter : Z) (f : list Z) : bool :=
  forallb (fun c => negb (c =? delimiter) && negb (c =? quotechar) && negb (is_newline c)) f.

(** A field as a file holds it: as it is, or between quotes with the
    quotes inside it doubled. *)
Inductive csv_field := Unquoted (f : list Z) | Quoted (f : list Z).

Definition field_value (x : csv_field) : list Z :=
  match x with Unquoted f | Quoted f => f end.

Definition double_quotes (f : list Z) : list Z :=
  flat_map (fun c => if c =? quotechar then [quotechar; quotechar] else [c]) f.

Definition field_text (x : csv_field) : list Z :=
  match x with
  | Unquoted f => f
  | Quoted f => [quotechar] ++ double_quotes f ++ [quotechar]
  end.

(** The fields the properties are about: within the field limit, plain
    when without quotes, on one line when between quotes. *)
Definition field_ok (delimiter : Z) (x : csv_field) : Prop :=
  Z.of_nat (length (field_value x)) <= field_limit /\
  match x with
  | Unquoted f => plain delimiter f = true
  | Quoted f => Forall (fun c => is_newline c = false) f
  end.

(** A line of a file: the fields between delimiters, then the line end. *)
Definition csv_line (delimiter : Z) (eol : list Z) (r : list csv_field) : list Z :=
  join [delimiter] (map field_text r) ++ eol.

(** Lines one after the other. *)
Definition csv_text (delimiter : Z) (eol : list Z) (rows : list (list csv_field)) : list Z :=
  flat_map (csv_line delimiter eol) rows.

(** A row of such fields.  The row of one empty field without quotes is
    left out: its line is a blank line. *)
Definition row_written (delimiter : Z) (r : list csv_field) : Prop :=
  r <> [Unquoted []] /\ Forall (field_ok delimiter) r.

(** The line ends of text files. *)
Definition line_ends : list (list Z) := [[10]; [13; 10]; [13]].

(** A file of lines, the last of which may have no line end. *)
Definition csv_file (delimiter : Z) (eol : list Z) (rows : list (list csv_field))
    (last : option (list csv_field)) : list Z :=
  csv_text delimiter eol rows ++
  match last with Some r => csv_line delimiter [] r | None => [] end.

(** The rows written in such a file: the values of their fields. *)
Definition rows_of (rows : list (list csv_field)) (last : option (list csv_field))
  : list (list (list Z)) :=
  map (map field_value) (rows ++ match last with Some r => [r] | None => [] end).

(** What is asked of the rows of such a file. *)
Definition rows_written (delimiter : Z) (rows : list (list csv_field))
    (last : option (list csv_field)) : Prop :=
  Forall (row_written delimiter) rows /\
  match last with Some r => row_written delimiter r /\ r <> [] | None => True end.

(** The states in which the reader takes the first character of a
    field. *)
Definition field_start (st : parser_state) : Prop :=
  st = START_RECORD \/ st = START_FIELD.

(** The reader after a field. *)
Definition after_field (x : csv_field) (st : parser_state) (acc : list (list Z)) : reader :=
  match x with
  | Unquoted [] => Reader st acc []
  | Unquoted f => Reader IN_FIELD acc f
  | Quoted f => Reader QUOTE_IN_QUOTED_FIELD acc f
  end.


(** ** Vocabulary: the text of the output *)

(** A character [json.dump] writes as it is inside a string. *)
Definition json_plain (c : Z) : bool :=
  negb (c =? 34) && negb (c =? 92) && negb (in_range 0 31 c).

Definition hex_value (c : Z) : Z := if c <? 58 then c - 48 else c - 87.

(** Reading back one character of a string of the output: the character
    and the text after it; nothing at the closing quote. *)
Definition json_unescape (s : list Z) : option (Z * list Z) :=
  match s with
  | [] => None
  | a :: r =>
      if a =? 34 then None
      else if negb (a =? 92) then Some (a, r)
      else
        match r with
        | [] => None
        | b :: r' =>
            if b =? 110 then Some (10, r')
            else if b =? 114 then Some (13, r')
            else if b =? 116 then Some (9, r')
            else if b =? 98 then Some (8, r')
            else if b =? 102 then Some (12, r')
            else if b =? 117 then
              match r' with
              | _ :: _ :: h :: l :: r'' => Some (16 * hex_value h + hex_value l, r'')
              | _ => None
              end
            else Some (b, r')
        end
  end.

(** The text of the output before the value of the member [k]. *)
Definition member_start (k : string) : list Z := [34] ++ lit k ++ [34] ++ lit ": " ++ [34].

(** What follows a document in the output. *)
Fixpoint json_rest (ds : list (list (list Z * pyval))) : list Z :=
  match ds with
  | [] => [10] ++ lit "]"
  | d :: ds' => lit "," ++ [10] ++ lit "  " ++ json_object d ++ json_rest ds'
  end.

(** ** Worlds of the examples *)

(** Fields with white space around them. *)
Definition spaced_world : world :=
  world_of {[ lit "in.csv" :=
                File (lit "cedente;pagador;valor;vencimento" ++ [10] ++
                      lit "  Empresa A ; Cliente B;  150.00 ; 5/3/2024 " ++ [10]) ]}.

(** Columns in another order, a quoted field, a blank line and a last
    line without line end. *)
Definition columns_world : world :=
  world_of {[ lit "in.csv" :=
                File (lit "vencimento|nota|cedente" ++ [13; 10] ++
                      lit "1/2/2024|x|" ++ [34] ++ lit " Silva | Filho " ++ [34] ++
                      lit "|y" ++ [13; 10] ++
                      [13; 10] ++
                      lit "31/02/2024") ]}.

(** An empty file, a file of a header only, and a directory. *)
Definition empty_world : world :=
  world_of {[ lit "vazio.csv" := File []; lit "titulos.csv" := File (lit "cedente;valor" ++ [10]);
              lit "dados" := Dir ]}.

(** A file whose second line starts with a field of 131073 characters. *)
Definition long_field : list Z := repeat 97 (Z.to_nat 131073).

Definition long_text : list Z :=
  csv_text 59 [10] [[Unquoted (lit "cedente"); Unquoted (lit "valor")]] ++
  long_field ++ lit ";1" ++ [10].

Definition long_world : world := world_of {[ lit "longo.csv" := File long_text ]}.

(** * Properties *)

(** Case analysis on a number known to be small. *)
Ltac small_cases n :=
  destruct n as [|n|n]; try lia;
  do 5 (try (destruct n as [n|n|]; try lia)).

(** Evaluating the closed parts of a goal about the matcher. *)
Ltac eval_term t := let v := eval vm_compute in t in change t with v.

Ltac eval_groups :=
  repeat match goal with
         | |- context [pad2 ?n] => eval_term (pad2 n)
         | |- context [decimal ?n] => eval_term (decimal n)
         end;
  repeat match goal with
         | |- context [group_d ?s] => eval_term (group_d s)
         | |- context [group_m ?s] => eval_term (group_m s)
         end;
  cbn [flat_map app];
  repeat match goal with
         | |- context [slash ?s] => eval_term (slash s)
         end;
  cbn [flat_map app]; rewrite ?app_nil_r.

(** ** Decimal numerals *)

Lemma in_range_spec lo hi c : in_range lo hi c = true <-> lo <= c <= hi.
Proof. unfold in_range. rewrite andb_true_iff, !Z.leb_le. tauto. Qed.

Lemma todecimal_ascii c : ascii_digit c = true -> todecimal c = Some (c - 48).
Proof.
  unfold ascii_digit. intros Hc. unfold todecimal, decimal_zeros.
  cbn [decimal_in]. change (48 + 9) with 57. rewrite Hc. reflexivity.
Qed.

Lemma is_decimal_ascii c : ascii_digit c = true -> is_decimal c = true.
Proof. intros Hc. unfold is_decimal. rewrite todecimal_ascii; auto. Qed.

Lemma ascii_digit_not_int_space c : ascii_digit c = true -> int_space c = false.
Proof.
  unfold ascii_digit. rewrite in_range_spec. intros Hc. unfold int_space, in_range.
  repeat match goal with
         | |- context [?a <=? ?b] => destruct (Z.leb_spec a b); try lia
         | |- context [?a =? ?b] => destruct (Z.eqb_spec a b); try lia
         | |- context [?a <? ?b] => destruct (Z.ltb_spec a b); try lia
         end; reflexivity.
Qed.

Lemma int_digits_ascii ds : forall acc count b,
  Forall (fun c => ascii_digit c = true) ds ->
  (b = true \/ ds <> []) ->
  int_digits ds acc count b =
    Some (fold_left (fun a c => 10 * a + (c - 48)) ds acc, (count + length ds)%nat).
Proof.
  induction ds as [|c ds IH]; intros acc count b Hds Hb.
  - destruct Hb as [->|]; [|congruence]. simpl. rewrite Nat.add_0_r. reflexivity.
  - inversion Hds; subst. cbn [int_digits fold_left length].
    rewrite todecimal_ascii by assumption.
    rewrite IH by auto. rewrite Nat.add_succ_r. reflexivity.
Qed.

(** White space is only skipped at the two ends of a numeral. *)
Lemma int_lstrip_id c s : int_space c = false -> int_lstrip (c :: s) = c :: s.
Proof. intros Hc. simpl. rewrite Hc. reflexivity. Qed.

Lemma int_rstrip_id s c :
  int_space c = false -> rev (int_lstrip (rev (s ++ [c]))) = s ++ [c].
Proof.
  intros Hc. rewrite rev_app_distr. simpl. rewrite Hc.
  change (c :: rev s) with (rev [c] ++ rev s). rewrite <- rev_app_distr.
  apply rev_involutive.
Qed.

Section Numerals.
Context `{Interpreter}.

Lemma int_unsigned_ascii ds :
  ds <> [] -> Forall (fun c => ascii_digit c = true) ds -> within_limit (length ds) ->
  int_unsigned ds = Val (decimal_value ds).
Proof.
  intros Hne Hds Hlim. unfold int_unsigned.
  rewrite int_digits_ascii by auto. cbn [Nat.add].
  fold (decimal_value ds).
  destruct (andb _ _) eqn:E; [|reflexivity].
  rewrite !andb_true_iff, !Nat.ltb_lt in E. unfold within_limit in Hlim. lia.
Qed.

Lemma last_not_space ds :
  ds <> [] -> Forall (fun c => ascii_digit c = true) ds ->
  exists s c, ds = s ++ [c] /\ ascii_digit c = true.
Proof.
  intros Hne Hds. destruct (exists_last Hne) as (s & c & ->).
  exists s, c. split; [reflexivity|].
  rewrite Forall_app in Hds. destruct Hds as [_ Hc]. inversion Hc; auto.
Qed.

(** [int] on a plain decimal numeral with an optional sign. *)
Lemma int_of_str_ascii ds :
  ds <> [] -> Forall (fun c => ascii_digit c = true) ds -> within_limit (length ds) ->
  int_of_str ds = Val (decimal_value ds) /\
  int_of_str (chr "+" :: ds) = Val (decimal_value ds) /\
  int_of_str (chr "-" :: ds) = Val (- decimal_value ds).
Proof.
  intros Hne Hds Hlim.
  destruct (last_not_space ds Hne Hds) as (s & c & Hs & Hc).
  pose proof (ascii_digit_not_int_space c Hc) as Hnc.
  assert (Hfirst : exists c0 s0, ds = c0 :: s0 /\ ascii_digit c0 = true).
  { destruct ds as [|c0 s0]; [congruence|]. inversion Hds; eauto. }
  destruct Hfirst as (c0 & s0 & Hds0 & Hc0).
  pose proof (ascii_digit_not_int_space c0 Hc0) as Hnc0.
  unfold ascii_digit in Hc0. rewrite in_range_spec in Hc0.
  unfold int_of_str. repeat split.
  - rewrite Hds0, int_lstrip_id by assumption. rewrite <- Hds0, Hs, int_rstrip_id by assumption.
    rewrite <- Hs. rewrite Hds0 at 1.
    destruct (Z.eqb_spec c0 (chr "+")) as [E|_]; [change (chr "+") with 43 in E; lia|].
    destruct (Z.eqb_spec c0 (chr "-")) as [E|_]; [change (chr "-") with 45 in E; lia|].
    rewrite <- Hds0. apply int_unsigned_ascii; auto.
  - rewrite int_lstrip_id by reflexivity.
    rewrite Hs. change (chr "+" :: s ++ [c]) with ((chr "+" :: s) ++ [c]).
    rewrite int_rstrip_id by assumption. cbn [app].
    rewrite <- Hs. change (chr "+" =? chr "+") with true. cbv iota.
    apply int_unsigned_ascii; auto.
  - rewrite int_lstrip_id by reflexivity.
    rewrite Hs. change (chr "-" :: s ++ [c]) with ((chr "-" :: s) ++ [c]).
    rewrite int_rstrip_id by assumption. cbn [app].
    rewrite <- Hs. change (chr "-" =? chr "+") with false.
    change (chr "-" =? chr "-") with true. cbv iota.
    rewrite int_unsigned_ascii by auto. reflexivity.
Qed.

End Numerals.

(** ** Trimming *)

Lemma lstrip_keep c s : is_space c = false -> lstrip (c :: s) = c :: s.
Proof. intros Hc. cbn [lstrip]. rewrite Hc. reflexivity. Qed.

Lemma lstrip_head s : lstrip s = [] \/ exists c t, lstrip s = c :: t /\ is_space c = false.
Proof.
  induction s as [|c s IH]; [left; reflexivity|]. cbn [lstrip].
  destruct (is_space c) eqn:E; [exact IH|]. right. eauto.
Qed.

Lemma lstrip_snoc s c : is_space c = false -> lstrip (s ++ [c]) = lstrip s ++ [c].
Proof.
  intros Hc. induction s as [|x s IH]; cbn [lstrip app].
  - rewrite Hc. reflexivity.
  - destruct (is_space x); [exact IH|reflexivity].
Qed.

Lemma rstrip_cons c s : is_space c = false -> rstrip (c :: s) = c :: rstrip s.
Proof.
  intros Hc. unfold rstrip. cbn [rev]. rewrite lstrip_snoc by assumption.
  rewrite rev_app_distr. reflexivity.
Qed.

Lemma lstrip_idem s : lstrip (lstrip s) = lstrip s.
Proof.
  destruct (lstrip_head s) as [->|(c & t & -> & Hc)]; [reflexivity|].
  apply lstrip_keep, Hc.
Qed.

Lemma rstrip_idem s : rstrip (rstrip s) = rstrip s.
Proof. unfold rstrip. rewrite rev_involutive, lstrip_idem. reflexivity. Qed.

(** Trimming a trimmed text changes nothing. *)
Lemma strip_idem s : strip (strip s) = strip s.
Proof.
  unfold strip.
  destruct (lstrip_head s) as [->|(c & t & -> & Hc)]; [reflexivity|].
  rewrite rstrip_cons, lstrip_keep by assumption.
  rewrite <- rstrip_cons by assumption. apply rstrip_idem.
Qed.

Lemma get_trimmed r k s : get r k = Val s -> strip s = s.
Proof.
  unfold get. destruct (dict_get (Some k) r) as [[x| |[|x l]]|];
    intros [= <-]; solve [apply strip_idem | reflexivity].
Qed.

(** ** Texts that are no numerals *)

Lemma int_digits_bad c s : forall acc count b,
  In c s -> todecimal c = None -> c <> chr "_" -> int_digits s acc count b = None.
Proof.
  induction s as [|x s IH]; intros acc count b Hin Hc Hu; [destruct Hin|].
  cbn [int_digits]. destruct Hin as [->|Hin].
  - rewrite Hc. destruct (Z.eqb_spec c (chr "_")); [contradiction|reflexivity].
  - destruct (todecimal x); [apply IH; assumption|].
    destruct (_ && _); [apply IH; assumption|reflexivity].
Qed.

Lemma int_lstrip_In c s : In c s -> int_space c = false -> In c (int_lstrip s).
Proof.
  intros Hin Hc. induction s as [|x s IH]; [destruct Hin|]. cbn [int_lstrip].
  destruct (int_space x) eqn:E; [|exact Hin].
  destruct Hin as [->|Hin]; [congruence|auto].
Qed.

Section NotNumeric.
Context `{Interpreter}.

Lemma int_unsigned_bad c s :
  In c s -> todecimal c = None -> c <> chr "_" -> int_unsigned s = Raise ValueError.
Proof.
  intros Hin Hc Hu. unfold int_unsigned.
  rewrite (int_digits_bad c) by assumption. reflexivity.
Qed.

(** A character that is no digit, sign, underscore or white space makes
    [int] fail. *)
Lemma int_of_str_bad c s :
  In c s -> todecimal c = None -> int_space c = false ->
  c <> chr "_" -> c <> chr "+" -> c <> chr "-" ->
  int_of_str s = Raise ValueError.
Proof.
  intros Hin Hc Hs Hu Hp Hm. unfold int_of_str.
  assert (Hin' : In c (rev (int_lstrip (rev (int_lstrip s))))).
  { apply in_rev. rewrite rev_involutive. apply int_lstrip_In; [|assumption].
    apply in_rev. rewrite rev_involutive. apply int_lstrip_In; assumption. }
  destruct (rev _) as [|x t]; [reflexivity|].
  destruct (Z.eqb_spec x (chr "+")) as [->|];
    [|destruct (Z.eqb_spec x (chr "-")) as [->|]].
  - destruct Hin' as [E|Hin']; [congruence|].
    apply (int_unsigned_bad c); assumption.
  - destruct Hin' as [E|Hin']; [congruence|].
    rewrite (int_unsigned_bad c) by assumption. reflexivity.
  - apply (int_unsigned_bad c); assumption.
Qed.

End NotNumeric.

(** ** The pattern DD/MM/YYYY *)

Lemma pad2_decimal_value a b :
  ascii_digit a = true -> ascii_digit b = true ->
  pad2 (decimal_value [a; b]) = [a; b] /\ 0 <= decimal_value [a; b] <= 99.
Proof.
  unfold ascii_digit. rewrite !in_range_spec. intros Ha Hb.
  unfold decimal_value, pad2, digit_chr. cbn [fold_left]. change (chr "0") with 48.
  split; [|lia]. f_equal; [|f_equal]; Z.div_mod_to_equations; lia.
Qed.

Lemma pad4_decimal_value a b c d :
  ascii_digit a = true -> ascii_digit b = true ->
  ascii_digit c = true -> ascii_digit d = true ->
  pad4 (decimal_value [a; b; c; d]) = [a; b; c; d] /\
  0 <= decimal_value [a; b; c; d] <= 9999.
Proof.
  unfold ascii_digit. rewrite !in_range_spec. intros Ha Hb Hc Hd.
  unfold decimal_value, pad4, digit_chr. cbn [fold_left]. change (chr "0") with 48.
  split; [|lia].
  f_equal; [|f_equal; [|f_equal; [|f_equal]]]; Z.div_mod_to_equations; lia.
Qed.

(** ** Dates as text *)

Lemma digit_chr_ascii v : 0 <= v <= 9 -> ascii_digit (digit_chr v) = true.
Proof.
  intros Hv. unfold ascii_digit, digit_chr. rewrite in_range_spec.
  change (chr "0") with 48. lia.
Qed.

Lemma pad2_digits n : 0 <= n <= 99 -> Forall (fun c => ascii_digit c = true) (pad2 n).
Proof.
  intros Hn. unfold pad2. repeat constructor; apply digit_chr_ascii;
    Z.div_mod_to_equations; lia.
Qed.

Lemma pad4_digits n : 0 <= n <= 9999 -> Forall (fun c => ascii_digit c = true) (pad4 n).
Proof.
  intros Hn. unfold pad4. repeat constructor; apply digit_chr_ascii;
    Z.div_mod_to_equations; lia.
Qed.

Lemma decimal_value_pad2 n : 0 <= n <= 99 -> decimal_value (pad2 n) = n.
Proof.
  intros Hn. unfold decimal_value, pad2, digit_chr. cbn [fold_left].
  change (chr "0") with 48. Z.div_mod_to_equations; lia.
Qed.

Lemma decimal_value_pad4 n : 0 <= n <= 9999 -> decimal_value (pad4 n) = n.
Proof.
  intros Hn. unfold decimal_value, pad4, digit_chr. cbn [fold_left].
  change (chr "0") with 48. Z.div_mod_to_equations; lia.
Qed.

Lemma valid_date_bounds y m d :
  valid_date y m d = true -> 1 <= y <= 9999 /\ 1 <= m <= 12 /\ 1 <= d <= 31.
Proof.
  unfold valid_date. rewrite !andb_true_iff, !in_range_spec.
  intros [[Hy Hm] Hd]. repeat split; try lia.
  unfold days_in_month in Hd.
  destruct (m =? 2); [destruct (is_leap y)|destruct (_ || _)]; lia.
Qed.

Section Strptime.
Context `{Interpreter}.

Lemma int_of_str_pad2 n : 0 <= n <= 99 -> int_of_str (pad2 n) = Val n.
Proof.
  intros Hn. destruct (int_of_str_ascii (pad2 n)) as [E _].
  - discriminate.
  - apply pad2_digits; assumption.
  - left. simpl. unfold str_digits_check_threshold. lia.
  - rewrite E, decimal_value_pad2; auto.
Qed.

Lemma int_of_str_pad4 n : 0 <= n <= 9999 -> int_of_str (pad4 n) = Val n.
Proof.
  intros Hn. destruct (int_of_str_ascii (pad4 n)) as [E _].
  - discriminate.
  - apply pad4_digits; assumption.
  - left. simpl. unfold str_digits_check_threshold. lia.
  - rewrite E, decimal_value_pad4; auto.
Qed.

(** The day of the month, with or without its leading zero. *)
Lemma day_text d t rest :
  1 <= d <= 31 -> In t [pad2 d; decimal d] ->
  match_d (t ++ 47 :: rest) = match_m t rest /\ int_of_str t = Val d /\ t <> [].
Proof.
  intros Hd Ht. small_cases d;
    (destruct Ht as [<-|[<-|[]]];
     (split; [unfold match_d; eval_groups; reflexivity
             |split; [vm_compute; reflexivity|discriminate]])).
Qed.

Lemma month_text d m t rest :
  1 <= m <= 12 -> In t [pad2 m; decimal m] ->
  match_m d (t ++ 47 :: rest) = match_Y d t rest /\ int_of_str t = Val m.
Proof.
  intros Hm Ht. small_cases m;
    (destruct Ht as [<-|[<-|[]]];
     (split; [unfold match_m; eval_groups; reflexivity
             |vm_compute; reflexivity])).
Qed.

Lemma year_text d m y :
  0 <= y <= 9999 -> match_Y d m (pad4 y) = [(d, m, pad4 y, [])].
Proof.
  intros Hy. pose proof (pad4_digits y Hy) as Hds. unfold pad4 in *.
  repeat match goal with
         | Hf : Forall _ (_ :: _) |- _ => inversion Hf; subst; clear Hf
         | Hf : Forall _ [] |- _ => clear Hf
         end.
  unfold match_Y, group_Y.
  rewrite !is_decimal_ascii by assumption. reflexivity.
Qed.

(** A date of the calendar is read from its text, padded or not. *)
Lemma strptime_accepts y m d dt mt :
  valid_date y m d = true ->
  In dt [pad2 d; decimal d] -> In mt [pad2 m; decimal m] ->
  strptime (dt ++ 47 :: mt ++ 47 :: pad4 y) = Val (Date y m d).
Proof.
  intros Hv Hdt Hmt. destruct (valid_date_bounds _ _ _ Hv) as (Hy & Hm & Hd).
  destruct (day_text d dt (mt ++ 47 :: pad4 y) Hd Hdt) as (E1 & I1 & _).
  destruct (month_text dt m mt (pad4 y) Hm Hmt) as (E2 & I2).
  unfold strptime, format_regex_match.
  rewrite E1, E2, year_text by lia. cbn [head].
  rewrite I1, I2, int_of_str_pad4 by lia. cbn [bind].
  unfold date_new. rewrite Hv. reflexivity.
Qed.

End Strptime.

Lemma in_one p s t r : In (t, r) (one p s) -> s = t ++ r /\ length t = 1%nat.
Proof.
  unfold one. destruct s as [|a s]; [intros []|].
  destruct (p a); [|intros []]. intros [[= <- <-]|[]]. auto.
Qed.

Lemma in_two p q s t r : In (t, r) (two p q s) -> s = t ++ r /\ length t = 2%nat.
Proof.
  unfold two. destruct s as [|a [|b s]]; try (intros []).
  destruct (p a && q b); [|intros []]. intros [[= <- <-]|[]]. auto.
Qed.

Lemma in_group_d s t r :
  In (t, r) (group_d s) -> s = t ++ r /\ (length t = 1 \/ length t = 2)%nat.
Proof.
  unfold group_d. rewrite !in_app_iff.
  intros [Hi|[Hi|[Hi|[Hi|Hi]]]];
    (apply in_two in Hi || apply in_one in Hi); destruct Hi; auto.
Qed.

Lemma in_group_m s t r :
  In (t, r) (group_m s) -> s = t ++ r /\ (length t = 1 \/ length t = 2)%nat.
Proof.
  unfold group_m. rewrite !in_app_iff.
  intros [Hi|[Hi|Hi]];
    (apply in_two in Hi || apply in_one in Hi); destruct Hi; auto.
Qed.

Lemma in_group_Y s t r : In (t, r) (group_Y s) -> s = t ++ r /\ length t = 4%nat.
Proof.
  unfold group_Y. destruct s as [|a [|b [|c [|d s]]]]; try (intros []).
  destruct (_ && _); [|intros []]. intros [[= <- <-]|[]]. auto.
Qed.

Lemma in_slash s r : In r (slash s) -> s = 47 :: r.
Proof.
  unfold slash. destruct s as [|c s]; [intros []|].
  destruct (Z.eqb_spec c (chr "/")) as [->|]; [|intros []].
  intros [<-|[]]. reflexivity.
Qed.

(** What the pattern matches is made of a day, a month and a year
    between slashes. *)
Lemma match_d_inv s d m y r :
  In (d, m, y, r) (match_d s) ->
  s = d ++ 47 :: m ++ 47 :: y ++ r /\
  (length d = 1 \/ length d = 2)%nat /\ (length m = 1 \/ length m = 2)%nat /\
  length y = 4%nat.
Proof.
  unfold match_d, match_m, match_Y. rewrite in_flat_map.
  intros ([d' r1] & Hd & Hi). rewrite in_flat_map in Hi.
  destruct Hi as (r2 & Hs1 & Hi). rewrite in_flat_map in Hi.
  destruct Hi as ([m' r3] & Hm & Hi). rewrite in_flat_map in Hi.
  destruct Hi as (r4 & Hs2 & Hi). rewrite in_flat_map in Hi.
  destruct Hi as ([y' r5] & Hy & [[= -> -> -> ->]|[]]).
  apply in_group_d in Hd as [-> Hd]. apply in_slash in Hs1 as ->.
  apply in_group_m in Hm as [-> Hm]. apply in_slash in Hs2 as ->.
  apply in_group_Y in Hy as [-> Hy]. auto.
Qed.

Lemma head_In {A} (l : list A) x : head l = Some x -> In x l.
Proof. destruct l; [discriminate|]. intros [= ->]. left. reflexivity. Qed.


Section Dates.
Context `{Interpreter}.


(** What [strptime] returns is a date of the calendar. *)
Lemma strptime_valid s dt :
  strptime s = Val dt -> valid_date (year dt) (month dt) (day dt) = true.
Proof.
  unfold strptime.
  destruct (format_regex_match s) as [[[[d m] y] r]|]; [|discriminate].
  destruct r; [|discriminate].
  destruct (int_of_str d); [|discriminate].
  destruct (int_of_str m); [|discriminate].
  destruct (int_of_str y); [|discriminate].
  cbn [bind]. unfold date_new.
  destruct (valid_date _ _ _) eqn:E; [|discriminate].
  intros [= <-]. exact E.
Qed.

Lemma strftime_padded y m d :
  valid_date y m d = true -> is_padded_date (strftime (Date y m d)) = true.
Proof.
  intros Hv. destruct (valid_date_bounds _ _ _ Hv) as (Hy & Hm & Hd).
  pose proof (pad2_digits d ltac:(lia)) as Fd.
  pose proof (pad2_digits m ltac:(lia)) as Fm.
  pose proof (pad4_digits y ltac:(lia)) as Fy.
  pose proof (decimal_value_pad2 d ltac:(lia)) as Vd.
  pose proof (decimal_value_pad2 m ltac:(lia)) as Vm.
  pose proof (decimal_value_pad4 y ltac:(lia)) as Vy.
  unfold strftime, pad2, pad4 in *. cbn [year month day app lit map list_ascii_of_string].
  repeat match goal with
         | Hf : Forall _ (_ :: _) |- _ => inversion Hf; subst; clear Hf
         | Hf : Forall _ [] |- _ => clear Hf
         end.
  unfold is_padded_date, matches_ddmmyyyy. cbn [forallb].
  rewrite Vd, Vm, Vy, Hv.
  repeat match goal with Hc : ascii_digit _ = true |- _ => rewrite Hc; clear Hc end.
  reflexivity.
Qed.

(** No failure leaves [parse_date_ddmmyyyy]. *)
Lemma parse_date_total v : exists s, parse_date_ddmmyyyy v = Val s.
Proof.
  unfold parse_date_ddmmyyyy. destruct (strip v); [eauto|].
  destruct (strptime _); cbn; eauto.
Qed.


(** The result is empty or a zero-padded date of the calendar. *)
Lemma parse_date_shape v s :
  parse_date_ddmmyyyy v = Val s -> s = [] \/ is_padded_date s = true.
Proof.
  unfold parse_date_ddmmyyyy. destruct (strip v) as [|c t]; [intros [= <-]; auto|].
  destruct (strptime (c :: t)) as [[y m d]|] eqn:E; cbn; intros [= <-]; [|auto].
  right. apply strptime_valid in E. apply strftime_padded. exact E.
Qed.

(** A date of the calendar, its day and month padded or not, gives the
    padded date. *)
Lemma parse_date_normalises v y m d dt mt :
  valid_date y m d = true ->
  In dt [pad2 d; decimal d] -> In mt [pad2 m; decimal m] ->
  strip v = dt ++ lit "/" ++ mt ++ lit "/" ++ pad4 y ->
  parse_date_ddmmyyyy v = Val (pad2 d ++ lit "/" ++ pad2 m ++ lit "/" ++ pad4 y).
Proof.
  intros Hv Hdt Hmt E. unfold parse_date_ddmmyyyy. rewrite E.
  destruct (valid_date_bounds _ _ _ Hv) as (_ & _ & Hd).
  destruct (day_text d dt [] Hd Hdt) as (_ & _ & Hne).
  change (dt ++ lit "/" ++ mt ++ lit "/" ++ pad4 y) with (dt ++ 47 :: mt ++ 47 :: pad4 y).
  destruct (dt ++ 47 :: mt ++ 47 :: pad4 y) eqn:E'.
  { destruct dt; [congruence|discriminate]. }
  rewrite <- E', (strptime_accepts y m d) by assumption. reflexivity.
Qed.


End Dates.

Lemma digit_chr_not_slash v : 0 <= v -> digit_chr v <> 47.
Proof. unfold digit_chr. change (chr "0") with 48. lia. Qed.

Section PaddedInvalid.
Context `{Interpreter}.

(** Digits in the pattern DD/MM/YYYY that are no date of the calendar
    are rejected. *)
Lemma strptime_padded_invalid y m d :
  0 <= d <= 99 -> 0 <= m <= 99 -> 0 <= y <= 9999 ->
  valid_date y m d = false ->
  strptime (pad2 d ++ lit "/" ++ pad2 m ++ lit "/" ++ pad4 y) = Raise ValueError.
Proof.
  intros Hd Hm Hy Hv. unfold strptime, format_regex_match.
  destruct (head (match_d _)) as [[[[dt mt] yt] r]|] eqn:E; [|reflexivity].
  destruct r as [|c r]; [|reflexivity].
  apply head_In, match_d_inv in E as (E & Ld & Lm & Ly).
  assert (D1 : digit_chr (d mod 10) <> 47) by (apply digit_chr_not_slash; Z.div_mod_to_equations; lia).
  assert (D2 : digit_chr (m mod 10) <> 47) by (apply digit_chr_not_slash; Z.div_mod_to_equations; lia).
  assert (dt = pad2 d /\ mt = pad2 m /\ yt = pad4 y) as (-> & -> & ->).
  { unfold pad2, pad4 in *. cbn in E.
    destruct dt as [|a [|b [|]]]; simpl in Ld; try lia;
      destruct mt as [|a' [|b' [|]]]; simpl in Lm; try lia;
      destruct yt as [|y1 [|y2 [|y3 [|y4 [|]]]]]; simpl in Ly; try lia;
      cbn in E; simplify_eq; auto. }
  rewrite int_of_str_pad2, int_of_str_pad2, int_of_str_pad4 by lia.
  cbn [bind]. unfold date_new. rewrite Hv. reflexivity.
Qed.

Lemma parse_date_padded_invalid v y m d :
  0 <= d <= 99 -> 0 <= m <= 99 -> 0 <= y <= 9999 ->
  valid_date y m d = false ->
  strip v = pad2 d ++ lit "/" ++ pad2 m ++ lit "/" ++ pad4 y ->
  parse_date_ddmmyyyy v = Val [].
Proof.
  intros Hd Hm Hy Hv E. unfold parse_date_ddmmyyyy. rewrite E.
  rewrite strptime_padded_invalid by assumption. reflexivity.
Qed.

End PaddedInvalid.

Example parse_date_padded :
  parse_date_ddmmyyyy (lit "15/03/2024") = Val (lit "15/03/2024").
Proof. vm_compute. reflexivity. Qed.

Example parse_date_wrong_separator :
  parse_date_ddmmyyyy (lit "31-02-2024") = Val [].
Proof. vm_compute. reflexivity. Qed.

Example parse_date_no_such_day :
  parse_date_ddmmyyyy (lit "31/02/2024") = Val [].
Proof. vm_compute. reflexivity. Qed.

Example parse_int_numeral : parse_int (lit " -0150 ") 7 = Val (-150).
Proof. vm_compute. reflexivity. Qed.

Example parse_int_amount : parse_int (lit "150.00") 0 = Val 0.
Proof. vm_compute. reflexivity. Qed.

Section Pattern.
Context `{Interpreter}.

Lemma parse_date_pattern value :
  matches_ddmmyyyy (strip value) = true ->
  parse_date_ddmmyyyy value =
    Val (if is_padded_date (strip value) then strip value else []).
Proof.
  intros Hm.
  destruct (strip value) as [|d1 [|d2 [|s1 [|m1 [|m2 [|s2 [|y1 [|y2 [|y3 [|y4 [|]]]]]]]]]]] eqn:E;
    try discriminate.
  unfold is_padded_date. rewrite Hm. cbn [andb].
  unfold matches_ddmmyyyy in Hm. cbn [forallb] in Hm.
  rewrite !andb_true_iff, !Z.eqb_eq in Hm.
  destruct Hm as [[(D1 & D2 & M1 & M2 & Y1 & Y2 & Y3 & Y4 & _) ->] ->].
  destruct (pad2_decimal_value d1 d2 D1 D2) as [Pd Rd].
  destruct (pad2_decimal_value m1 m2 M1 M2) as [Pm Rm].
  destruct (pad4_decimal_value y1 y2 y3 y4 Y1 Y2 Y3 Y4) as [Py Ry].
  assert (Es : strip value =
               pad2 (decimal_value [d1; d2]) ++ lit "/" ++
               pad2 (decimal_value [m1; m2]) ++ lit "/" ++
               pad4 (decimal_value [y1; y2; y3; y4])).
  { rewrite Pd, Pm, Py. exact E. }
  destruct (valid_date _ _ _) eqn:Hv.
  - rewrite (parse_date_normalises value _ _ _ _ _ Hv (or_introl eq_refl)
               (or_introl eq_refl) Es).
    rewrite Pd, Pm, Py. reflexivity.
  - apply (parse_date_padded_invalid value _ _ _ Rd Rm Ry Hv Es).
Qed.

End Pattern.

Example pattern_check : parse_date_ddmmyyyy (lit "29/02/2023") = Val [].
Proof. exact (parse_date_pattern (lit "29/02/2023") eq_refl). Qed.

(** ** Rows *)

Lemma dict_set_ok k v r : cell_ok (k, v) -> row_ok r -> row_ok (dict_set k v r).
Proof.
  intros Hkv Hr. induction Hr as [|[k' v'] r Hx Hr IH]; cbn [dict_set].
  - repeat constructor. exact Hkv.
  - destruct (decide (k = k')); constructor; auto.
Qed.

Lemma fold_zip_ok (l : list (list Z * list Z)) : forall r,
  row_ok r -> row_ok (fold_left (fun d '(k, v) => dict_set (Some k) (CStr v) d) l r).
Proof.
  induction l as [|[k v] l IH]; intros r Hr; cbn [fold_left]; [exact Hr|].
  apply IH, dict_set_ok; [exact I|exact Hr].
Qed.

Lemma fold_restval_ok (l : list (list Z)) : forall r,
  row_ok r -> row_ok (fold_left (fun d k => dict_set (Some k) CNone d) l r).
Proof.
  induction l as [|k l IH]; intros r Hr; cbn [fold_left]; [exact Hr|].
  apply IH, dict_set_ok; [exact I|exact Hr].
Qed.

Lemma dict_row_ok fieldnames r : row_ok (dict_row fieldnames r).
Proof.
  unfold dict_row.
  pose proof (fold_zip_ok (combine fieldnames r) [] (List.Forall_nil _)) as H0.
  destruct (_ <? _)%nat.
  - apply dict_set_ok; [exact I|exact H0].
  - destruct (_ <? _)%nat; [|exact H0]. apply fold_restval_ok, H0.
Qed.

Lemma dict_get_ok r k v : row_ok r -> dict_get k r = Some v -> cell_ok (k, v).
Proof.
  intros Hr. induction Hr as [|[k' v'] r Hx Hr IH]; cbn [dict_get]; [discriminate|].
  destruct (decide (k = k')) as [->|]; [intros [= <-]; exact Hx|exact IH].
Qed.

(** On such a row [get] returns. *)
Lemma get_total r k : row_ok r -> exists s, get r k = Val s.
Proof.
  intros Hr. unfold get.
  destruct (dict_get (Some k) r) as [[s| |[|x l]]|] eqn:E; eauto.
  apply (dict_get_ok _ _ _ Hr) in E. destruct E.
Qed.

Lemma make_objectid_hex_spec w :
  exists oid w', make_objectid_hex w = (Val oid, w') /\ same_files w w'.
Proof.
  unfold make_objectid_hex, try_io, bson_ObjectId, token_hex.
  destruct (bson w); eexists _, _; (split; [reflexivity|split; reflexivity]).
Qed.

(** Without the [bson] package the identifier is made of 24 characters. *)
Lemma make_objectid_hex_fallback w :
  bson w = None -> exists oid w', make_objectid_hex w = (Val oid, w') /\ length oid = 24%nat.
Proof.
  intros E. unfold make_objectid_hex, try_io, bson_ObjectId, token_hex. rewrite E.
  eexists _, _. split; reflexivity.
Qed.

Section Rows.
Context `{Interpreter} `{Sniffer}.

Lemma parse_int_total v d : exists n, parse_int v d = Val n.
Proof.
  unfold parse_int. destruct (strip v); [eauto|].
  destruct (int_of_str _); cbn; eauto.
Qed.

(** The document of a row is made of the trimmed fields and of the date
    read from the trimmed [vencimento]; the identifier drawn for it does
    not appear. *)
Lemma carregar_row_spec r :
  row_ok r ->
  exists c p v t s,
    get r (lit "cedente") = Val c /\ get r (lit "pagador") = Val p /\
    get r (lit "valor") = Val v /\ get r (lit "vencimento") = Val t /\
    parse_date_ddmmyyyy t = Val s /\
    forall w, exists w',
      carregar_row r w = (Val (document c p v s), w') /\ same_files w w'.
Proof.
  intros Hr.
  destruct (get_total r (lit "cedente") Hr) as [c Hc].
  destruct (get_total r (lit "pagador") Hr) as [p Hp].
  destruct (get_total r (lit "valor") Hr) as [v Hv].
  destruct (get_total r [] Hr) as [l Hl].
  destruct (get_total r (lit "vencimento") Hr) as [t Ht].
  destruct (parse_date_total t) as [s Hs].
  destruct (parse_int_total v 0) as [n Hn].
  exists c, p, v, t, s. repeat (split; [assumption|]).
  intros w. destruct (make_objectid_hex_spec w) as (oid & w' & Ho & Hw).
  exists w'. split; [|exact Hw].
  unfold carregar_row, local_of, io_bind, lift, ret.
  rewrite Ht, Hc, Hp, Hv, Hl. cbn [bind]. rewrite Hs, Hn, Ho. reflexivity.
Qed.

(** The loop appends one document for each row, in order. *)
Lemma carregar_rows_spec rows :
  Forall row_ok rows ->
  exists docs,
    Forall2 (fun r d => forall w, fst (carregar_row r w) = Val d) rows docs /\
    forall boletins w, exists w',
      carregar_rows rows boletins w = (Val (boletins ++ docs), w') /\ same_files w w'.
Proof.
  induction 1 as [|r rows Hr Hrows (docs & Hdocs & IH)].
  - exists []. split; [constructor|]. intros b w. exists w.
    cbn. rewrite app_nil_r. repeat split.
  - destruct (carregar_row_spec r Hr) as (c & p & v & t & s & _ & _ & _ & _ & _ & Hrow).
    exists (document c p v s :: docs). split.
    + constructor; [|exact Hdocs]. intros w. destruct (Hrow w) as (w' & -> & _). reflexivity.
    + intros b w. destruct (Hrow w) as (w1 & E1 & [F1 O1]).
      destruct (IH (b ++ [document c p v s]) w1) as (w2 & E2 & [F2 O2]).
      exists w2. cbn [carregar_rows]. unfold io_bind. rewrite E1, E2.
      rewrite <- app_assoc. split; [reflexivity|]. split; congruence.
Qed.

Lemma DictReader_ok text d : Forall row_ok (fst (DictReader text d)).
Proof.
  unfold DictReader. destruct (csv_reader text d) as [[|fieldnames data] err]; cbn [fst].
  - constructor.
  - apply List.Forall_forall. intros r Hr. apply in_map_iff in Hr as (x & <- & _).
    apply dict_row_ok.
Qed.

(** The delimiter is one of the four candidates, the tab when the
    sniffer fails. *)
Lemma sniff_delimiter_spec sample :
  exists d, sniff_delimiter sample = Val d /\ In d candidates /\
            (forall d', sniff sample candidates = Val d' -> d = d') /\
            (forall e, sniff sample candidates = Raise e -> d = 9).
Proof.
  unfold sniff_delimiter, try_except.
  destruct (sniff sample candidates) as [d|e] eqn:E.
  - exists d. split; [reflexivity|]. split; [eapply sniff_restricted, E|].
    split; [congruence|discriminate].
  - exists 9. split; [reflexivity|]. split; [right; right; left; reflexivity|].
    split; [discriminate|reflexivity].
Qed.

Lemma carregar_missing caminho_csv class_name w :
  fs w !! Path caminho_csv = None ->
  carregar caminho_csv class_name w = (Raise (FileNotFoundError (not_found caminho_csv)), w).
Proof.
  intros E. unfold carregar, io_bind, path_exists. rewrite E. reflexivity.
Qed.

Lemma carregar_directory caminho_csv class_name w :
  fs w !! Path caminho_csv = Some Dir ->
  carregar caminho_csv class_name w = (Raise (EISDIR (Path caminho_csv)), w).
Proof.
  intros E. unfold carregar, io_bind, path_exists, open_read. rewrite E.
  cbn [negb]. cbv beta. rewrite E. reflexivity.
Qed.

(** Reading a file: one document for each row of [DictReader], in
    order, unless the reader fails.  The documents depend on the text of
    the file only. *)
Lemma carregar_text text :
  exists docs,
    Forall2 (fun r d => forall w, fst (carregar_row r w) = Val d)
            (fst (DictReader text (delimiter_of text))) docs /\
    forall caminho_csv class_name w,
      fs w !! Path caminho_csv = Some (File text) -> exists w',
        same_files w w' /\
        carregar caminho_csv class_name w =
          match snd (DictReader text (delimiter_of text)) with
          | Some e => (Raise e, w')
          | None => (Val docs, add_stdout [extracted (length docs)] w')
          end.
Proof.
  destruct (carregar_rows_spec _ (DictReader_ok text (delimiter_of text)))
    as (docs & Hdocs & Hrun).
  exists docs. split; [exact Hdocs|]. intros caminho_csv class_name w E.
  destruct (Hrun [] w) as (w' & Erun & Hw). exists w'. split; [exact Hw|].
  unfold carregar, io_bind, path_exists, open_read, lift. rewrite E.
  cbn [negb]. cbv beta. rewrite E.
  unfold delimiter_of in *.
  destruct (sniff_delimiter_spec (take 2048 text)) as (d & Hd & _).
  rewrite Hd in *.
  destruct (DictReader text d) as [rows err]. cbn [fst snd] in *.
  rewrite Erun. cbn [app]. destruct err; reflexivity.
Qed.

Lemma carregar_file caminho_csv class_name text F :
  F !! Path caminho_csv = Some (File text) ->
  exists docs,
    Forall2 (fun r d => forall w, fst (carregar_row r w) = Val d)
            (fst (DictReader text (delimiter_of text))) docs /\
    forall w, fs w = F -> exists w',
      same_files w w' /\
      carregar caminho_csv class_name w =
        match snd (DictReader text (delimiter_of text)) with
        | Some e => (Raise e, w')
        | None => (Val docs, add_stdout [extracted (length docs)] w')
        end.
Proof.
  intros E. destruct (carregar_text text) as (docs & Hdocs & Hrun).
  exists docs. split; [exact Hdocs|]. intros w <-. apply Hrun, E.
Qed.

End Rows.

(** ** Failures of the reader *)

Lemma parse_add_char_error c r e : parse_add_char c r = Raise e -> is_csv_error e.
Proof.
  unfold parse_add_char. destruct (_ <=? _); [|discriminate].
  intros [= <-]. eexists. reflexivity.
Qed.

Lemma bind_add_char_error c r (k : reader -> reader) e :
  (let* r' := parse_add_char c r in Val (k r'))%exc = Raise e -> is_csv_error e.
Proof.
  destruct (parse_add_char c r) eqn:E; cbn; [discriminate|].
  intros [= <-]. eapply parse_add_char_error, E.
Qed.

Lemma parse_process_char_error delimiter r c e :
  parse_process_char delimiter r c = Raise e -> is_csv_error e.
Proof.
  unfold parse_process_char.
  destruct (state r), c as [ch|]; try discriminate;
    repeat match goal with
           | |- (if ?b then _ else _) = _ -> _ => destruct b
           end;
    try discriminate;
    first [ apply bind_add_char_error | apply parse_add_char_error
          | intros [= <-]; eexists; reflexivity ].
Qed.

Lemma parse_line_error delimiter line : forall r e,
  parse_line delimiter r line = Raise e -> is_csv_error e.
Proof.
  induction line as [|c line IH]; intros r e; cbn [parse_line].
  - apply parse_process_char_error.
  - destruct (parse_process_char delimiter r (Some c)) eqn:E; cbn [bind].
    + apply IH.
    + intros [= <-]. eapply parse_process_char_error, E.
Qed.

Lemma reader_rows_error delimiter lines : forall r e,
  snd (reader_rows delimiter lines r) = Some e -> is_csv_error e.
Proof.
  induction lines as [|line lines IH]; intros r e; cbn [reader_rows].
  - destruct (field r), (state r); discriminate.
  - destruct (parse_line delimiter r line) as [r'|e'] eqn:E.
    + destruct (state r'); try apply IH.
      destruct (reader_rows delimiter lines parse_reset) as [rows err] eqn:E'.
      cbn [snd]. intros ->. apply (IH parse_reset). rewrite E'. reflexivity.
    + cbn [snd]. intros [= <-]. eapply parse_line_error, E.
Qed.

Lemma DictReader_error text delimiter e :
  snd (DictReader text delimiter) = Some e -> is_csv_error e.
Proof.
  unfold DictReader.
  destruct (csv_reader text delimiter) as [rows err] eqn:E.
  assert (err = snd (csv_reader text delimiter)) as -> by (rewrite E; reflexivity).
  destruct rows; cbn [snd]; apply reader_rows_error.
Qed.

(** ** Files the reader goes through *)

Lemma newlines_line_ok line : Forall (fun x => is_newline x = true) line -> line_ok line.
Proof.
  induction 1 as [|c line Hc Hl IH]; cbn [line_ok]; [exact I|]. rewrite Hc. exact Hl.
Qed.

Lemma line_ok_snoc cur c :
  Forall (fun x => is_newline x = false) cur -> line_ok (cur ++ [c]).
Proof.
  induction 1 as [|x cur Hx Hcur IH]; cbn [app line_ok].
  - destruct (is_newline c); [constructor|exact I].
  - rewrite Hx. exact IH.
Qed.

Lemma line_ok_crlf cur :
  Forall (fun x => is_newline x = false) cur -> line_ok (cur ++ [13; 10]).
Proof.
  induction 1 as [|x cur Hx Hcur IH]; cbn [app line_ok].
  - cbn. repeat constructor.
  - rewrite Hx. exact IH.
Qed.

Lemma line_ok_plain cur : Forall (fun x => is_newline x = false) cur -> line_ok cur.
Proof.
  induction 1 as [|x cur Hx Hcur IH]; cbn [line_ok]; [exact I|]. rewrite Hx. exact IH.
Qed.

(** The lines of a text are such lines, and make up the text. *)
Lemma readlines_spec s : forall cur,
  Forall (fun x => is_newline x = false) cur ->
  Forall line_ok (readlines s cur) /\ concat (readlines s cur) = cur ++ s.
Proof.
  remember (length s) as n eqn:Hn. revert s Hn.
  induction n as [n IH] using lt_wf_ind. intros s Hn cur Hcur.
  destruct s as [|c s]; cbn [readlines].
  - destruct cur; [split; [constructor|reflexivity]|].
    split; [repeat constructor; apply line_ok_plain, Hcur|].
    cbn [concat]. rewrite !app_nil_r. reflexivity.
  - destruct (Z.eqb_spec c 10) as [->|H10].
    { destruct (IH (length s) ltac:(simpl in Hn; lia) s eq_refl [] (List.Forall_nil _)) as [Hl Hc].
      split; [constructor; [apply line_ok_snoc, Hcur|exact Hl]|].
      cbn [concat]. rewrite Hc, <- app_assoc. reflexivity. }
    destruct (Z.eqb_spec c 13) as [->|H13].
    { destruct s as [|c' s].
      - split; [repeat constructor; apply line_ok_snoc, Hcur|].
        cbn [concat]. rewrite app_nil_r. reflexivity.
      - destruct (Z.eqb_spec c' 10) as [->|H10'].
        + destruct (IH (length s) ltac:(simpl in Hn; lia) s eq_refl [] (List.Forall_nil _))
            as [Hl Hc].
          split; [constructor; [apply line_ok_crlf, Hcur|exact Hl]|].
          cbn [concat]. rewrite Hc, <- app_assoc. reflexivity.
        + destruct (IH (length (c' :: s)) ltac:(simpl in Hn |- *; lia) (c' :: s) eq_refl []
                       (List.Forall_nil _)) as [Hl Hc].
          split; [constructor; [apply line_ok_snoc, Hcur|exact Hl]|].
          cbn [concat]. rewrite Hc, <- app_assoc. reflexivity. }
    assert (Hc : is_newline c = false).
    { unfold is_newline.
      destruct (Z.eqb_spec c 10), (Z.eqb_spec c 13); try contradiction; reflexivity. }
    destruct (IH (length s) ltac:(simpl in Hn; lia) s eq_refl (cur ++ [c])) as [Hl Hcat].
    { apply Forall_app. split; [exact Hcur|repeat constructor; exact Hc]. }
    split; [exact Hl|]. rewrite Hcat, <- app_assoc. reflexivity.
Qed.

Lemma parse_add_char_ok c r :
  Z.of_nat (length (field r)) < field_limit ->
  parse_add_char c r = Val (Reader (state r) (fields r) (field r ++ [c])).
Proof.
  intros Hlen. unfold parse_add_char.
  destruct (Z.leb_spec field_limit (Z.of_nat (length (field r)))); [lia|reflexivity].
Qed.

(** A character is taken without failure while the field is short,
    unless it follows a line end outside quotes. *)
Lemma parse_char_ok delimiter r c :
  (is_newline c = false -> state r <> EAT_CRNL) ->
  Z.of_nat (length (field r)) < field_limit ->
  exists r',
    parse_process_char delimiter r (Some c) = Val r' /\
    (length (field r') <= S (length (field r)))%nat /\
    (is_newline c = false -> state r' <> EAT_CRNL).
Proof.
  intros Hst Hlen. unfold parse_process_char. cbv zeta.
  pose proof (parse_add_char_ok c r Hlen) as Hadd.
  pose proof (parse_add_char_ok c (set_state START_FIELD r) Hlen) as Hadd'.
  destruct (state r) eqn:Est; destruct (is_newline c) eqn:Enl;
    try (exfalso; apply Hst; reflexivity);
    repeat match goal with
           | |- context [if ?b then _ else _] => destruct b
           end;
    rewrite ?Hadd, ?Hadd'; cbn [bind];
    (eexists; split; [reflexivity|]);
    cbn [field state set_state parse_save_field length];
    rewrite ?length_app; cbn [length];
    (split; [lia|]); intros; try discriminate; try congruence.
Qed.

Lemma parse_eol_ok delimiter r :
  exists r',
    parse_process_char delimiter r None = Val r' /\
    (length (field r') <= length (field r))%nat /\
    (state r' = START_RECORD \/ state r' = IN_QUOTED_FIELD).
Proof.
  unfold parse_process_char. cbv zeta.
  destruct (state r) eqn:Est; (eexists; split; [reflexivity|]);
    cbn [field state set_state parse_save_field length]; (split; [lia|auto]).
Qed.

Lemma parse_line_ok delimiter line : forall r,
  line_ok line ->
  (state r = EAT_CRNL -> Forall (fun x => is_newline x = true) line) ->
  Z.of_nat (length (field r) + length line) <= field_limit ->
  exists r',
    parse_line delimiter r line = Val r' /\
    (length (field r') <= length (field r) + length line)%nat /\
    (state r' = START_RECORD \/ state r' = IN_QUOTED_FIELD).
Proof.
  induction line as [|c line IH]; intros r Hline Hst Hlen; cbn [parse_line].
  - destruct (parse_eol_ok delimiter r) as (r' & E & Hf & Hs).
    exists r'. split; [exact E|]. split; [lia|exact Hs].
  - cbn [length line_ok] in *.
    destruct (parse_char_ok delimiter r c) as (r1 & E1 & Hf1 & Hs1).
    { intros Hc Hr. specialize (Hst Hr). inversion Hst; congruence. }
    { lia. }
    rewrite E1. cbn [bind].
    destruct (IH r1) as (r' & E & Hf & Hs).
    { destruct (is_newline c); [apply newlines_line_ok, Hline|exact Hline]. }
    { intros Hr. destruct (is_newline c); [exact Hline|]. exfalso. apply Hs1; auto. }
    { lia. }
    exists r'. split; [exact E|]. split; [lia|exact Hs].
Qed.

Lemma reader_rows_ok delimiter lines : forall r,
  Forall line_ok lines ->
  state r <> EAT_CRNL ->
  Z.of_nat (length (field r) + length (concat lines)) <= field_limit ->
  snd (reader_rows delimiter lines r) = None.
Proof.
  induction lines as [|line lines IH]; intros r Hlines Hst Hlen; cbn [reader_rows].
  - destruct (field r), (state r); reflexivity.
  - inversion Hlines as [|? ? Hline Hrest]; subst.
    cbn [concat] in Hlen. rewrite length_app in Hlen.
    destruct (parse_line_ok delimiter line r Hline) as (r' & E & Hf & Hs).
    { intros Hr. contradiction. }
    { lia. }
    rewrite E. destruct Hs as [Hs|Hs]; rewrite Hs.
    + destruct (reader_rows delimiter lines parse_reset) as [rows err] eqn:E'.
      cbn [snd]. change err with (snd (rows, err)). rewrite <- E'.
      apply IH; [exact Hrest|discriminate|]. cbn [parse_reset field length]. lia.
    + apply IH; [exact Hrest|congruence|lia].
Qed.

(** A text no longer than the field limit is read without failure. *)
Lemma csv_reader_total text delimiter :
  Z.of_nat (length text) <= field_limit -> snd (csv_reader text delimiter) = None.
Proof.
  intros Hlen. unfold csv_reader.
  destruct (readlines_spec text [] (List.Forall_nil _)) as [Hl Hc].
  apply reader_rows_ok; [exact Hl|discriminate|].
  rewrite Hc. cbn [parse_reset field length app]. lia.
Qed.

Lemma DictReader_total text delimiter :
  Z.of_nat (length text) <= field_limit -> snd (DictReader text delimiter) = None.
Proof.
  intros Hlen. pose proof (csv_reader_total text delimiter Hlen) as E.
  unfold DictReader. destruct (csv_reader text delimiter) as [[|fieldnames data] err];
    exact E.
Qed.

(** ** The exit code *)

Section Run.
Context `{Interpreter} `{Sniffer}.

Lemma handler_spec e w :
  (match e with
   | FileNotFoundError _ => (let* _ := print (exn_str e) in ret 2)%io
   | _ => (let* _ := print (lit "Erro: " ++ exn_str e) in ret 3)%io
   end) w = (Val (exit_code e), add_stdout [error_line e] w).
Proof. destruct e; reflexivity. Qed.

Lemma run_raises input_csv output_json class_name w e w' :
  carregar input_csv class_name w = (Raise e, w') ->
  run input_csv output_json class_name w = (Val (exit_code e), add_stdout [error_line e] w').
Proof.
  intros E. unfold run, try_io, io_bind. rewrite E. apply handler_spec.
Qed.

Lemma run_returns input_csv output_json class_name w docs w' :
  carregar input_csv class_name w = (Val docs, w') ->
  run input_csv output_json class_name w =
    match create_error (fs w') output_json with
    | Some e => (Val (exit_code e), add_stdout [error_line e] w')
    | None =>
        (Val 0, add_stdout [written output_json]
                  (set_fs (<[output_json := File (json_dumps docs)]> (fs w')) w'))
    end.
Proof.
  intros E. unfold run, try_io, io_bind, carregar_json, open_write. rewrite E.
  unfold io_bind. destruct (create_error (fs w') output_json) as [e|].
  - apply handler_spec.
  - reflexivity.
Qed.

End Run.

Lemma arguments_none argv :
  arguments argv = None <->
  length argv <> 1%nat /\ length argv <> 3%nat /\ length argv <> 4%nat.
Proof.
  destruct argv as [|a [|b [|c [|d [|e argv]]]]]; cbn [arguments length];
    split; try discriminate; try lia; intros; try reflexivity; lia.
Qed.

Section ExitCode.
Context `{Interpreter} `{Sniffer}.

(** Every file no longer than the field limit is read through. *)
Lemma readable_short_file (files : gmap (list Z) node) (input_csv text : list Z) :
  files !! Path input_csv = Some (File text) ->
  Z.of_nat (length text) <= field_limit ->
  readable files input_csv.
Proof.
  intros E Hlen. exists text. split; [exact E|]. apply DictReader_total, Hlen.
Qed.

Lemma exit_code_cases e : exit_code e = 2 \/ exit_code e = 3.
Proof. destruct e; auto. Qed.

Lemma exit_code_2 e : exit_code e = 2 <-> exists msg, e = FileNotFoundError msg.
Proof.
  destruct e; cbn; split; try discriminate; eauto;
    intros [msg' E]; discriminate.
Qed.

Lemma exit_code_csv e : is_csv_error e -> exit_code e = 3.
Proof. intros [msg ->]. reflexivity. Qed.

Lemma stdout_add lines w : stdout (add_stdout lines w) = stdout w ++ lines.
Proof. reflexivity. Qed.

Lemma run_exit_code input_csv output_json class_name w :
  exists code w',
    run input_csv output_json class_name w = (Val code, w') /\
    (code = 0 \/ code = 2 \/ code = 3) /\
    (code = 0 <-> readable (fs w) input_csv /\ create_error (fs w) output_json = None) /\
    (code = 2 <->
       fs w !! Path input_csv = None \/
       (readable (fs w) input_csv /\
        exists msg, create_error (fs w) output_json = Some (FileNotFoundError msg))) /\
    (code = 0 ->
       exists docs,
         fst (carregar input_csv class_name w) = Val docs /\
         fs w' = <[output_json := File (json_dumps docs)]> (fs w) /\
         stdout w' = stdout w ++ [extracted (length docs); written output_json]) /\
    (code <> 0 ->
       fs w' = fs w /\ exists lines e, stdout w' = stdout w ++ lines ++ [error_line e]).
Proof.
  destruct (fs w !! Path input_csv) as [[text|]|] eqn:E.
  - destruct (carregar_file input_csv class_name text (fs w) E) as (docs & _ & Hrun).
    destruct (Hrun w eq_refl) as (w1 & [F1 O1] & Ecar).
    destruct (snd (DictReader text (delimiter_of text))) as [e|] eqn:Eerr.
    + pose proof (exit_code_csv e (DictReader_error _ _ _ Eerr)) as E3.
      eexists _, _. split; [apply (run_raises _ _ _ _ _ _ Ecar)|]. rewrite E3.
      split; [auto|]. split.
      { split; [discriminate|]. intros [(text' & Et & En) _]. congruence. }
      split.
      { split; [discriminate|]. intros [?|[(text' & Et & En) _]]; congruence. }
      split; [discriminate|]. intros _. split; [exact F1|].
      exists [], e. rewrite stdout_add, O1. reflexivity.
    + assert (Hread : readable (fs w) input_csv) by (exists text; auto).
      rewrite (run_returns _ _ _ _ _ _ Ecar). cbn [fs add_stdout]. rewrite F1.
      destruct (create_error (fs w) output_json) as [e|] eqn:Ec.
      * eexists _, _. split; [reflexivity|].
        split; [destruct (exit_code_cases e) as [->| ->]; auto|].
        split.
        { split; [destruct (exit_code_cases e); lia|]. intros [_ ?]. discriminate. }
        split.
        { rewrite exit_code_2. split.
          - intros [msg ->]. right. eauto.
          - intros [?|[_ [msg [= ->]]]]; [congruence|eauto]. }
        split; [destruct (exit_code_cases e); lia|].
        intros _. split; [exact F1|].
        exists [extracted (length docs)], e. rewrite !stdout_add, O1, <- app_assoc. reflexivity.
      * eexists _, _. split; [reflexivity|].
        split; [auto|]. split; [tauto|].
        split.
        { split; [discriminate|]. intros [?|[_ [msg ?]]]; congruence. }
        split; [|congruence]. intros _. exists docs.
        rewrite Ecar. split; [reflexivity|]. split; [reflexivity|].
        cbn. rewrite O1, <- app_assoc. reflexivity.
  - rewrite (run_raises _ output_json _ _ _ _ (carregar_directory _ class_name _ E)).
    eexists _, _. split; [reflexivity|]. cbn [exit_code EISDIR].
    split; [auto|]. split.
    { split; [discriminate|]. intros [(text' & Et & En) _]. congruence. }
    split.
    { split; [discriminate|]. intros [?|[(text' & Et & En) _]]; congruence. }
    split; [discriminate|]. intros _. split; [reflexivity|].
    exists [], (EISDIR (Path input_csv)). reflexivity.
  - rewrite (run_raises _ output_json _ _ _ _ (carregar_missing _ class_name _ E)).
    eexists _, _. split; [reflexivity|]. cbn [exit_code].
    split; [auto|]. split.
    { split; [discriminate|]. intros [(text' & Et & En) _]. congruence. }
    split; [tauto|].
    split; [discriminate|]. intros _. split; [reflexivity|].
    exists [], (FileNotFoundError (not_found input_csv)). reflexivity.
Qed.

End ExitCode.

(** ** What a run depends on *)

Section Outcome.
Context `{Interpreter} `{Sniffer}.

(** The result of [carregar] and the lines it prints are fixed by the
    files; the identifier sources of the world have no part in them. *)
Lemma carregar_outcome (caminho_csv class_name : list Z) (F : gmap (list Z) node) :
  exists res lines, forall w, fs w = F -> exists w',
    carregar caminho_csv class_name w = (res, w') /\
    fs w' = F /\ stdout w' = stdout w ++ lines.
Proof.
  destruct (F !! Path caminho_csv) as [[text|]|] eqn:E.
  - destruct (carregar_file caminho_csv class_name text F E) as (docs & _ & Hrun).
    destruct (snd (DictReader text (delimiter_of text))) as [e|].
    + exists (Raise e), []. intros w Hw. destruct (Hrun w Hw) as (w' & [F1 O1] & ->).
      exists w'. rewrite app_nil_r. split; [reflexivity|]. split; congruence.
    + exists (Val docs), [extracted (length docs)]. intros w Hw.
      destruct (Hrun w Hw) as (w' & [F1 O1] & ->).
      eexists. split; [reflexivity|]. cbn. split; congruence.
  - exists (Raise (EISDIR (Path caminho_csv))), []. intros w <-. exists w.
    rewrite app_nil_r. split; [apply carregar_directory, E|auto].
  - exists (Raise (FileNotFoundError (not_found caminho_csv))), []. intros w <-. exists w.
    rewrite app_nil_r. split; [apply carregar_missing, E|auto].
Qed.

Lemma run_outcome (input_csv output_json class_name : list Z)
    (F : gmap (list Z) node) :
  exists code F' lines, forall w, fs w = F -> exists w',
    run input_csv output_json class_name w = (Val code, w') /\
    fs w' = F' /\ stdout w' = stdout w ++ lines.
Proof.
  destruct (carregar_outcome input_csv class_name F) as ([docs|e] & lines & Hcar).
  - destruct (create_error F output_json) as [e|] eqn:Ec.
    + exists (exit_code e), F, (lines ++ [error_line e]). intros w Hw.
      destruct (Hcar w Hw) as (w' & Ecar & F1 & O1).
      rewrite (run_returns _ _ _ _ _ _ Ecar), F1, Ec. eexists. split; [reflexivity|].
      cbn. rewrite O1, <- app_assoc. auto.
    + exists 0, (<[output_json := File (json_dumps docs)]> F), (lines ++ [written output_json]).
      intros w Hw. destruct (Hcar w Hw) as (w' & Ecar & F1 & O1).
      rewrite (run_returns _ _ _ _ _ _ Ecar), F1, Ec. eexists. split; [reflexivity|].
      cbn. rewrite O1, <- app_assoc. auto.
  - exists (exit_code e), F, (lines ++ [error_line e]). intros w Hw.
    destruct (Hcar w Hw) as (w' & Ecar & F1 & O1).
    rewrite (run_raises _ _ _ _ _ _ Ecar). eexists. split; [reflexivity|].
    cbn. rewrite O1, <- app_assoc. auto.
Qed.

Lemma usage_outcome w :
  (let* _ := print (nth 0 usage []) in
   let* _ := print (nth 1 usage []) in
   ret 1)%io w = (Val 1, add_stdout usage w).
Proof.
  unfold io_bind, print, ret, add_stdout. cbn [fs stdout bson entropy oid_count entropy_pos].
  rewrite <- app_assoc. reflexivity.
Qed.

Lemma main_arguments argv w :
  main argv w =
    match arguments argv with
    | Some (input_csv, output_json) =>
        run input_csv output_json
            (match argv with [_; _; _; class_name] => class_name | _ => DEFAULT_CLASS end) w
    | None => (Val 1, add_stdout usage w)
    end.
Proof.
  destruct argv as [|a [|b [|c [|d [|e argv]]]]]; cbn [main arguments];
    solve [reflexivity | apply usage_outcome].
Qed.

Lemma main_outcome (argv : list (list Z)) (F : gmap (list Z) node) :
  exists code F' lines, forall w, fs w = F -> exists w',
    main argv w = (Val code, w') /\ fs w' = F' /\ stdout w' = stdout w ++ lines.
Proof.
  destruct (arguments argv) as [[input_csv output_json]|] eqn:E.
  - destruct (run_outcome input_csv output_json
                (match argv with [_; _; _; class_name] => class_name | _ => DEFAULT_CLASS end) F)
      as (code & F' & lines & Hrun).
    exists code, F', lines. intros w Hw. rewrite main_arguments, E. apply Hrun, Hw.
  - exists 1, F, usage. intros w Hw. rewrite main_arguments, E.
    eexists. split; [reflexivity|]. auto.
Qed.

End Outcome.

(** ** The date field *)






(** ** Rows and documents *)

Section Documents.
Context `{Interpreter} `{Sniffer}.

Lemma DictReader_length text d :
  length (fst (DictReader text d)) =
  length (List.filter nonblank (tail (fst (csv_reader text d)))).
Proof.
  unfold DictReader. destruct (csv_reader text d) as [[|fieldnames data] err]; cbn [fst tail].
  - reflexivity.
  - apply length_map.
Qed.

(** C3.  For a file the reader goes through, [carregar] returns one
    document for each record of [DictReader], in the order of the file:
    the document at a position is the document of the record at that
    position, and there are as many documents as data rows. *)
Theorem carregar_one_document_per_record
    (caminho_csv class_name text : list Z) (w : world) :
  fs w !! Path caminho_csv = Some (File text) ->
  snd (DictReader text (delimiter_of text)) = None ->
  exists docs w',
    carregar caminho_csv class_name w = (Val docs, w') /\
    Forall2 (fun r d => forall w0, fst (carregar_row r w0) = Val d)
            (fst (DictReader text (delimiter_of text))) docs /\
    length docs = length (data_rows text).
Proof.
  intros E Herr.
  destruct (carregar_file caminho_csv class_name text (fs w) E) as (docs & Hdocs & Hrun).
  destruct (Hrun w eq_refl) as (w' & _ & Ecar). rewrite Herr in Ecar.
  exists docs, (add_stdout [extracted (length docs)] w').
  split; [exact Ecar|]. split; [exact Hdocs|].
  rewrite <- (Forall2_length _ _ _ Hdocs). apply DictReader_length.
Qed.

(** The reader goes through every file no longer than the field limit:
    such a file always gives its documents. *)
Corollary carregar_short_file (caminho_csv class_name text : list Z) (w : world) :
  fs w !! Path caminho_csv = Some (File text) ->
  Z.of_nat (length text) <= field_limit ->
  exists docs w',
    carregar caminho_csv class_name w = (Val docs, w') /\
    length docs = length (data_rows text).
Proof.
  intros E Hlen.
  destruct (carregar_file caminho_csv class_name text (fs w) E) as (docs & Hdocs & Hrun).
  destruct (Hrun w eq_refl) as (w' & _ & Ecar).
  rewrite (DictReader_total text _ Hlen) in Ecar.
  exists docs, (add_stdout [extracted (length docs)] w'). split; [exact Ecar|].
  rewrite <- (Forall2_length _ _ _ Hdocs). apply DictReader_length.
Qed.

Lemma document_is_ok c p v s : document_ok (document c p v s).
Proof. repeat split. Qed.

Lemma documents_ok rows docs :
  Forall row_ok rows ->
  Forall2 (fun r d => forall w0, fst (carregar_row r w0) = Val d) rows docs ->
  Forall document_ok docs.
Proof.
  intros Hok Hdocs. induction Hdocs as [|r d rows docs Hd Hdocs IH]; [constructor|].
  inversion Hok; subst. constructor; [|apply IH; assumption].
  destruct (carregar_row_spec r) as (c & p & v & t & s & _ & _ & _ & _ & _ & Hrow);
    [assumption|].
  destruct (Hrow (world_of ∅)) as (w2 & Erow & _).
  specialize (Hd (world_of ∅)). rewrite Erow in Hd.
  injection Hd as <-. apply document_is_ok.
Qed.

(** C4.  Whatever the header and the fields of a row, its document has
    the keys [cedente], [pagador], [valor] and [vencimento] in this
    order, each with a string, and neither an identifier ([_id]) nor a
    class ([_class]); so has every document [carregar] returns. *)
Theorem documents_have_fixed_keys
    (caminho_csv class_name : list Z) (w w' : world) (docs : list (list (list Z * pyval))) :
  carregar caminho_csv class_name w = (Val docs, w') ->
  Forall document_ok docs /\
  forall fieldnames fields w0, exists d w1,
    carregar_row (dict_row fieldnames fields) w0 = (Val d, w1) /\ document_ok d.
Proof.
  intros Ecar. split.
  - destruct (fs w !! Path caminho_csv) as [[text|]|] eqn:E.
    + destruct (carregar_file caminho_csv class_name text (fs w) E) as (docs' & Hdocs & Hrun).
      destruct (Hrun w eq_refl) as (w1 & _ & Ecar'). rewrite Ecar in Ecar'.
      destruct (snd (DictReader text (delimiter_of text))); [discriminate|].
      injection Ecar' as <- _.
      exact (documents_ok _ _ (DictReader_ok text (delimiter_of text)) Hdocs).
    + rewrite (carregar_directory _ _ _ E) in Ecar. discriminate.
    + rewrite (carregar_missing _ _ _ E) in Ecar. discriminate.
  - intros fieldnames fields w0.
    destruct (carregar_row_spec (dict_row fieldnames fields) (dict_row_ok _ _))
      as (c & p & v & t & s & _ & _ & _ & _ & _ & Hrow).
    destruct (Hrow w0) as (w1 & E & _). exists (document c p v s), w1.
    split; [exact E|apply document_is_ok].
Qed.

(** C6.  Whatever the sample, the detection of the delimiter returns:
    one character among the comma, the semicolon, the tab and the bar,
    the one the sniffer reports when it reports one and the tab when it
    raises; it is never the quote character nor a line end, so the
    reader can use it. *)
Theorem sniff_delimiter_is_usable (sample : list Z) :
  exists d,
    sniff_delimiter sample = Val d /\
    In d [chr ","; chr ";"; 9; chr "|"] /\
    (forall d', sniff sample candidates = Val d' -> d = d') /\
    (forall e, sniff sample candidates = Raise e -> d = 9) /\
    d <> quotechar /\ is_newline d = false.
Proof.
  destruct (sniff_delimiter_spec sample) as (d & E & Hin & Hv & Hr).
  exists d. split; [exact E|]. split; [exact Hin|]. split; [exact Hv|]. split; [exact Hr|].
  destruct Hin as [<-|[<-|[<-|[<-|[]]]]]; split; solve [discriminate | reflexivity].
Qed.

(** C5.  [parse_int] never raises.  A value that is empty once trimmed,
    or that [int] rejects, gives the default; so does every text holding
    a character that is no digit, sign, underscore or white space.  A
    trimmed value [int] converts gives its integer: a decimal numeral
    with an optional sign, within the length the interpreter converts,
    gives the number it denotes.  In the dictionary [local] of a row the
    member [numero] is [parse_int] of the same trimmed field [valor] the
    member [valor] holds, with default 0. *)
Theorem parse_int_spec (value : list Z) (default : Z) :
  (exists n, parse_int value default = Val n) /\
  (strip value = [] -> parse_int value default = Val default) /\
  (forall e, int_of_str (strip value) = Raise e -> parse_int value default = Val default) /\
  (forall c,
     In c (strip value) -> todecimal c = None -> int_space c = false ->
     c <> chr "_" -> c <> chr "+" -> c <> chr "-" ->
     parse_int value default = Val default) /\
  (forall n, strip value <> [] -> int_of_str (strip value) = Val n ->
             parse_int value default = Val n) /\
  (forall sign ds,
     In sign [[]; lit "+"; lit "-"] ->
     ds <> [] -> Forall (fun c => ascii_digit c = true) ds -> within_limit (length ds) ->
     strip value = sign ++ ds ->
     parse_int value default = Val (signed sign (decimal_value ds))) /\
  (forall fieldnames fields, exists c p v l n,
     get (dict_row fieldnames fields) (lit "valor") = Val v /\
     parse_int v 0 = Val n /\
     local_of (dict_row fieldnames fields) =
       Val [(lit "cedente", PStr c); (lit "pagador", PStr p); (lit "valor", PStr v);
            (lit "logradouro", PStr l); (lit "numero", PInt n)]).
Proof.
  split; [apply parse_int_total|].
  split; [intros E; unfold parse_int; rewrite E; reflexivity|].
  split.
  { intros e E. unfold parse_int. destruct (strip value); [reflexivity|].
    rewrite E. reflexivity. }
  split.
  { intros c Hin Hc Hs Hu Hp Hm. unfold parse_int.
    destruct (strip value) as [|x t] eqn:E; [reflexivity|].
    rewrite (int_of_str_bad c) by assumption. reflexivity. }
  split.
  { intros n Hne E. unfold parse_int. destruct (strip value); [congruence|].
    rewrite E. reflexivity. }
  split.
  { intros sign ds Hsign Hne Hds Hlim E.
    destruct (int_of_str_ascii ds Hne Hds Hlim) as (E0 & Ep & Em).
    unfold parse_int. rewrite E.
    destruct Hsign as [<-|[<-|[<-|[]]]].
    - cbn [app]. destruct ds; [congruence|]. rewrite E0. reflexivity.
    - cbn [app lit map list_ascii_of_string]. rewrite Ep. reflexivity.
    - cbn [app lit map list_ascii_of_string]. rewrite Em. reflexivity. }
  intros fieldnames fields.
  pose proof (dict_row_ok fieldnames fields) as Hr.
  destruct (get_total _ (lit "cedente") Hr) as [c Hc].
  destruct (get_total _ (lit "pagador") Hr) as [p Hp].
  destruct (get_total _ (lit "valor") Hr) as [v Hv].
  destruct (get_total _ [] Hr) as [l Hl].
  destruct (parse_int_total v 0) as [n Hn].
  exists c, p, v, l, n. split; [exact Hv|]. split; [exact Hn|].
  unfold local_of. rewrite Hc, Hp, Hv, Hl. cbn [bind]. rewrite Hn. reflexivity.
Qed.

End Documents.

(** ** The entry point *)

Section Main.
Context `{Interpreter} `{Sniffer}.

(** C2, amended.  [main] always returns an exit code.  With an argument
    count other than none, two or three after the program name (an
    [argv] of length other than 1, 3 or 4) it is 1: the usage is printed
    and no file is touched.  Otherwise it is 0, 2 or
    3.  It is 0 exactly when the input is read through and the output
    file can be opened; the output file then holds the serialised
    documents.  It is 2 exactly when a [FileNotFoundError] is raised: the
    input path does not exist, or the input is read through and opening
    the output raises it (no directory for it).  Any other failure gives
    3.  On 2 and 3 a message is printed and no file is written. *)
Theorem main_exit_code (argv : list (list Z)) (w : world) :
  exists code w',
    main argv w = (Val code, w') /\
    (arguments argv = None <->
       length argv <> 1%nat /\ length argv <> 3%nat /\ length argv <> 4%nat) /\
    match arguments argv with
    | None => code = 1 /\ fs w' = fs w /\ stdout w' = stdout w ++ usage
    | Some (input_csv, output_json) =>
        (code = 0 \/ code = 2 \/ code = 3) /\
        (code = 0 <->
           readable (fs w) input_csv /\ create_error (fs w) output_json = None) /\
        (code = 2 <->
           fs w !! Path input_csv = None \/
           (readable (fs w) input_csv /\
            exists msg, create_error (fs w) output_json = Some (FileNotFoundError msg))) /\
        (code = 0 ->
           exists docs,
             fst (carregar input_csv DEFAULT_CLASS w) = Val docs /\
             fs w' = <[output_json := File (json_dumps docs)]> (fs w) /\
             stdout w' = stdout w ++ [extracted (length docs); written output_json]) /\
        (code <> 0 ->
           fs w' = fs w /\
           exists lines e, stdout w' = stdout w ++ lines ++ [error_line e])
    end.
Proof.
  rewrite main_arguments. pose proof (arguments_none argv) as Hlen.
  destruct (arguments argv) as [[input_csv output_json]|].
  - destruct (run_exit_code input_csv output_json
                (match argv with [_; _; _; class_name] => class_name | _ => DEFAULT_CLASS end) w)
      as (code & w' & Hrun & Hcode).
    exists code, w'. split; [exact Hrun|]. split; [exact Hlen|exact Hcode].
  - exists 1, (add_stdout usage w). split; [reflexivity|]. split; [exact Hlen|].
    repeat split.
Qed.

(** C7.  When the input path does not exist [main] returns 2, prints the
    message naming the path, and leaves every file as it was: the output
    file is neither created nor changed. *)
Theorem missing_input_exits_2 (argv : list (list Z)) (input_csv output_json : list Z)
    (w : world) :
  arguments argv = Some (input_csv, output_json) ->
  fs w !! Path input_csv = None ->
  main argv w =
    (Val 2, add_stdout [lit "Arquivo n" ++ [227] ++ lit "o encontrado: " ++ input_csv] w) /\
  fs (snd (main argv w)) = fs w.
Proof.
  intros Ha E. rewrite main_arguments, Ha.
  rewrite (run_raises _ output_json _ _ _ _ (carregar_missing input_csv _ w E)).
  split; reflexivity.
Qed.

(** C8.  The class name has no effect: [carregar] returns the same
    documents and leaves the same world whatever it is, and [main] with a
    third argument returns the same exit code and leaves the same files
    and output as with another third argument, or with none. *)
Theorem class_name_has_no_effect
    (program input_csv output_json class1 class2 : list Z) (w : world) :
  carregar input_csv class1 w = carregar input_csv class2 w /\
  main [program; input_csv; output_json; class1] w =
    main [program; input_csv; output_json; class2] w /\
  main [program; input_csv; output_json; class1] w =
    main [program; input_csv; output_json] w.
Proof. repeat split. Qed.

(** C10.  The documents are a function of the text of the input file:
    two worlds where the input path names a file of the same text give
    the same documents.  Two runs on the same files give the same exit
    code, the same files (so the same bytes in the output file) and the
    same printed lines.  Both hold whatever identifiers the two worlds
    hand out: no document holds the identifier drawn for it. *)
Theorem output_is_deterministic
    (argv : list (list Z)) (caminho_csv class_name : list Z) (w1 w2 : world) :
  (forall text,
     fs w1 !! Path caminho_csv = Some (File text) ->
     fs w2 !! Path caminho_csv = Some (File text) ->
     fst (carregar caminho_csv class_name w1) = fst (carregar caminho_csv class_name w2)) /\
  (fs w1 = fs w2 -> stdout w1 = stdout w2 ->
   fst (main argv w1) = fst (main argv w2) /\
   fs (snd (main argv w1)) = fs (snd (main argv w2)) /\
   stdout (snd (main argv w1)) = stdout (snd (main argv w2))).
Proof.
  split.
  - intros text E1 E2. destruct (carregar_text text) as (docs & _ & Hrun).
    destruct (Hrun caminho_csv class_name w1 E1) as (w1' & _ & ->).
    destruct (Hrun caminho_csv class_name w2 E2) as (w2' & _ & ->).
    destruct (snd (DictReader text (delimiter_of text))); reflexivity.
  - intros Hfs Hout.
    destruct (main_outcome argv (fs w1)) as (code & F' & lines & Hmain).
    destruct (Hmain w1 eq_refl) as (w1' & -> & F1 & O1).
    destruct (Hmain w2 (eq_sym Hfs)) as (w2' & -> & F2 & O2).
    cbn [fst snd]. split; [reflexivity|]. split; congruence.
Qed.

End Main.

(** The run of the spec's example: one record, one document. *)
Example end_to_end :
  main [lit "main.py"; lit "in.csv"; lit "out.json"] sample_world =
    (Val 0,
     World (<[lit "out.json" :=
                File (json_dumps [document (lit "Empresa A") (lit "Cliente B")
                                           (lit "150.00") (lit "15/03/2024")])]>
              (fs sample_world))
           [extracted 1; written (lit "out.json")]
           (bson sample_world) (entropy sample_world) 0 12).
Proof. vm_compute. reflexivity. Qed.

(** The same with a date in the wrong separators: [vencimento] is
    empty. *)
Example end_to_end_bad_date :
  fst (carregar (lit "in.csv") DEFAULT_CLASS
         (world_of {[ lit "in.csv" :=
                        File (lit "cedente;pagador;valor;vencimento" ++ [10] ++
                              lit "Empresa A;Cliente B;150.00;31-02-2024" ++ [10]) ]})) =
    Val [document (lit "Empresa A") (lit "Cliente B") (lit "150.00") []].
Proof. vm_compute. reflexivity. Qed.

(** The layout of the output file. *)
Example json_layout :
  json_dumps [document (lit "A") (lit "B") (lit "1.5") []] =
    lit "[" ++ [10] ++
    lit "  {" ++ [10] ++
    lit "    " ++ quoted "cedente" ++ lit ": " ++ quoted "A" ++ lit "," ++ [10] ++
    lit "    " ++ quoted "pagador" ++ lit ": " ++ quoted "B" ++ lit "," ++ [10] ++
    lit "    " ++ quoted "valor" ++ lit ": " ++ quoted "1.5" ++ lit "," ++ [10] ++
    lit "    " ++ quoted "vencimento" ++ lit ": " ++ quoted "" ++ [10] ++
    lit "  }" ++ [10] ++
    lit "]".
Proof. vm_compute. reflexivity. Qed.

(** C2, as the spec states it, fails: with the input file found, an
    output path in a directory that does not exist gives exit code 2. *)
Lemma exit_2_with_input_found :
  fs sample_world !! Path (lit "in.csv") = Some (File sample_text) /\
  fst (main [lit "main.py"; lit "in.csv"; lit "saida/out.json"] sample_world) = Val 2.
Proof. split; vm_compute; reflexivity. Qed.

Lemma missing_input_exits_2_witness :
  arguments [lit "main.py"; lit "nada.csv"; lit "out.json"] =
    Some (lit "nada.csv", lit "out.json") /\
  fs sample_world !! Path (lit "nada.csv") = None /\
  main [lit "main.py"; lit "nada.csv"; lit "out.json"] sample_world =
    (Val 2, add_stdout [lit "Arquivo n" ++ [227] ++ lit "o encontrado: nada.csv"] sample_world) /\
  fs (snd (main [lit "main.py"; lit "nada.csv"; lit "out.json"] sample_world)) =
    fs sample_world.
Proof.
  split; [reflexivity|]. split; [reflexivity|].
  exact (missing_input_exits_2 [lit "main.py"; lit "nada.csv"; lit "out.json"]
           (lit "nada.csv") (lit "out.json") sample_world eq_refl eq_refl).
Defined.

(** C10 on two worlds with the same files and other identifiers. *)
Lemma output_is_deterministic_witness :
  fst (carregar (lit "in.csv") DEFAULT_CLASS sample_world) =
    fst (carregar (lit "in.csv") DEFAULT_CLASS other_world) /\
  fst (main [lit "main.py"; lit "in.csv"; lit "out.json"] sample_world) =
    fst (main [lit "main.py"; lit "in.csv"; lit "out.json"] other_world) /\
  fs (snd (main [lit "main.py"; lit "in.csv"; lit "out.json"] sample_world)) =
    fs (snd (main [lit "main.py"; lit "in.csv"; lit "out.json"] other_world)).
Proof.
  destruct (output_is_deterministic [lit "main.py"; lit "in.csv"; lit "out.json"]
              (lit "in.csv") DEFAULT_CLASS sample_world other_world)
    as (Hdocs & Hmain).
  split; [exact (Hdocs sample_text eq_refl eq_refl)|].
  destruct (Hmain eq_refl eq_refl) as (Hcode & Hfs & _).
  split; assumption.
Defined.

Lemma carregar_one_document_per_record_witness :
  fs sample_world !! Path (lit "in.csv") = Some (File sample_text) /\
  snd (DictReader sample_text (delimiter_of sample_text)) = None /\
  exists docs w',
    carregar (lit "in.csv") DEFAULT_CLASS sample_world = (Val docs, w') /\
    length docs = 1%nat.
Proof.
  split; [reflexivity|]. split; [vm_compute; reflexivity|].
  destruct (carregar_one_document_per_record (lit "in.csv") DEFAULT_CLASS sample_text
              sample_world eq_refl) as (docs & w' & E & _ & Hlen).
  - vm_compute. reflexivity.
  - exists docs, w'. split; [exact E|]. rewrite Hlen. vm_compute. reflexivity.
Defined.

Lemma documents_have_fixed_keys_witness :
  exists docs w',
    carregar (lit "in.csv") DEFAULT_CLASS sample_world = (Val docs, w') /\
    Forall document_ok docs.
Proof.
  destruct (carregar (lit "in.csv") DEFAULT_CLASS sample_world) as [[docs|e] w'] eqn:E.
  - exists docs, w'. split; [reflexivity|].
    exact (proj1 (documents_have_fixed_keys (lit "in.csv") DEFAULT_CLASS sample_world w' docs E)).
  - vm_compute in E. discriminate.
Defined.

Lemma parse_int_spec_witness :
  parse_int (lit "  ") 7 = Val 7 /\
  parse_int (lit "150.00") 0 = Val 0 /\
  parse_int (lit " -0150 ") 0 = Val (-150).
Proof.
  split; [exact (proj1 (proj2 (parse_int_spec (lit "  ") 7)) eq_refl)|]. split.
  - apply (proj1 (proj2 (proj2 (proj2 (parse_int_spec (lit "150.00") 0)))) (chr ".")).
    + vm_compute. tauto.
    + reflexivity.
    + reflexivity.
    + discriminate.
    + discriminate.
    + discriminate.
  - apply (proj1 (proj2 (proj2 (proj2 (proj2 (proj2 (parse_int_spec (lit " -0150 ") 0))))))
             (lit "-") (lit "0150")).
    + right. right. left. reflexivity.
    + discriminate.
    + repeat constructor.
    + left. vm_compute. lia.
    + reflexivity.
Defined.

(** * Further properties *)

(** ** Identifiers *)

Lemma hex_digit_is_hex v : 0 <= v < 16 -> is_hex (hex_digit v) = true.
Proof.
  intros Hv. unfold is_hex, hex_digit, in_range.
  change (chr "0") with 48. change (chr "a") with 97.
  destruct (Z.ltb_spec v 10).
  - apply orb_true_iff. left. apply andb_true_iff. rewrite !Z.leb_le. lia.
  - apply orb_true_iff. right. apply andb_true_iff. rewrite !Z.leb_le. lia.
Qed.

Lemma hex2_is_hex b : forallb is_hex (hex2 b) = true.
Proof.
  unfold hex2. cbn [forallb].
  rewrite !hex_digit_is_hex; [reflexivity| |]; apply Z.mod_pos_bound; lia.
Qed.

Lemma token_hex_is_hex (f : nat -> Z) l :
  forallb is_hex (flat_map (fun i => hex2 (f i)) l) = true /\
  length (flat_map (fun i => hex2 (f i)) l) = (2 * length l)%nat.
Proof.
  induction l as [|i l [IH1 IH2]]; [split; reflexivity|].
  cbn [flat_map]. rewrite forallb_app, hex2_is_hex, IH1, length_app, IH2.
  split; [reflexivity|]. cbn [hex2 length]. lia.
Qed.

(** X1.  [make_objectid_hex] never raises and touches neither the files
    nor the output.  With the [bson] package it returns the identifier
    the package generates; without it, the fallback: 24 lower-case
    hexadecimal digits, two for each of the next twelve bytes of the
    random source, which are used up. *)
Theorem make_objectid_hex_returns (w : world) :
  exists oid w',
    make_objectid_hex w = (Val oid, w') /\
    fs w' = fs w /\ stdout w' = stdout w /\
    bson w' = bson w /\ entropy w' = entropy w /\
    match bson w with
    | Some gen =>
        oid = gen (oid_count w) /\
        oid_count w' = S (oid_count w) /\ entropy_pos w' = entropy_pos w
    | None =>
        oid = flat_map (fun i => hex2 (entropy w (entropy_pos w + i)%nat)) (seq 0 12) /\
        length oid = 24%nat /\ forallb is_hex oid = true /\
        entropy_pos w' = (entropy_pos w + 12)%nat /\ oid_count w' = oid_count w
    end.
Proof.
  unfold make_objectid_hex, try_io, bson_ObjectId, token_hex.
  destruct (bson w) as [gen|] eqn:E.
  - eexists _, _. split; [reflexivity|]. cbn. repeat split; assumption.
  - eexists _, _. split; [reflexivity|]. cbn.
    destruct (token_hex_is_hex (fun i => entropy w (entropy_pos w + i)%nat) (seq 0 12))
      as [Hhex Hlen].
    repeat split; assumption.
Qed.

Lemma drawn_one w : drawn 1 w (snd (make_objectid_hex w)).
Proof.
  unfold drawn, make_objectid_hex, try_io, bson_ObjectId, token_hex.
  destruct (bson w) eqn:E; cbn; rewrite ?E; repeat split; lia.
Qed.

Lemma drawn_trans n m w1 w2 w3 : drawn n w1 w2 -> drawn m w2 w3 -> drawn (n + m) w1 w3.
Proof.
  unfold drawn. intros (B1 & E1 & H1) (B2 & E2 & H2). rewrite B1 in H2.
  split; [congruence|]. split; [congruence|].
  destruct (bson w1); destruct H1, H2; split; lia.
Qed.

Lemma drawn_stdout n w w' lines : drawn n w w' -> drawn n w (add_stdout lines w').
Proof. intros Hd. exact Hd. Qed.

Section Identifiers.
Context `{Interpreter} `{Sniffer}.

Lemma carregar_row_world r w :
  row_ok r -> snd (carregar_row r w) = snd (make_objectid_hex w).
Proof.
  intros Hr.
  destruct (get_total r (lit "cedente") Hr) as [c Hc].
  destruct (get_total r (lit "pagador") Hr) as [p Hp].
  destruct (get_total r (lit "valor") Hr) as [v Hv].
  destruct (get_total r [] Hr) as [l Hl].
  destruct (get_total r (lit "vencimento") Hr) as [t Ht].
  destruct (parse_date_total t) as [s Hs].
  destruct (parse_int_total v 0) as [n Hn].
  destruct (make_objectid_hex_spec w) as (oid & w' & Ho & _).
  unfold carregar_row, local_of, io_bind, lift, ret.
  rewrite Ht, Hc, Hp, Hv, Hl. cbn [bind]. rewrite Hs, Hn, Ho. reflexivity.
Qed.

Lemma carregar_rows_drawn rows : forall boletins w,
  Forall row_ok rows ->
  drawn (length rows) w (snd (carregar_rows rows boletins w)).
Proof.
  induction rows as [|r rows IH]; intros b w Hrows.
  - cbn. unfold drawn. destruct (bson w); repeat split; lia.
  - inversion Hrows as [|? ? Hr Hrest]; subst.
    pose proof (carregar_row_world r w Hr) as Hw.
    destruct (carregar_row_spec r Hr) as (c & p & v & t & s & _ & _ & _ & _ & _ & Hrow).
    destruct (Hrow w) as (w1 & E1 & _). rewrite E1 in Hw. cbn [snd] in Hw.
    cbn [carregar_rows]. unfold io_bind. rewrite E1.
    change (length (r :: rows)) with (1 + length rows)%nat.
    apply (drawn_trans 1 (length rows) w w1).
    + rewrite Hw. apply drawn_one.
    + apply IH, Hrest.
Qed.

(** X2.  [carregar] on an existing file draws exactly one identifier for
    each record it reads, although no document holds one: with the
    [bson] package one object identifier per record, without it twelve
    bytes of the random source per record. *)
Theorem carregar_draws_one_identifier_per_record
    (caminho_csv class_name text : list Z) (w : world) :
  fs w !! Path caminho_csv = Some (File text) ->
  drawn (length (fst (DictReader text (delimiter_of text)))) w
        (snd (carregar caminho_csv class_name w)).
Proof.
  intros E. unfold carregar, io_bind, path_exists, open_read, lift. rewrite E.
  cbn [negb]. cbv beta. rewrite E.
  unfold delimiter_of.
  destruct (sniff_delimiter_spec (take 2048 text)) as (d & Hd & _). rewrite Hd.
  pose proof (carregar_rows_drawn _ [] w (DictReader_ok text d)) as Hdr.
  destruct (DictReader text d) as [rows err]. cbn [fst] in *.
  destruct (carregar_rows rows [] w) as [[docs|e] w1]; cbn [snd] in *.
  - destruct err; [exact Hdr|]. apply drawn_stdout, Hdr.
  - exact Hdr.
Qed.

End Identifiers.

Lemma carregar_draws_one_identifier_per_record_witness :
  entropy_pos (snd (carregar (lit "in.csv") DEFAULT_CLASS sample_world)) = 12%nat /\
  oid_count (snd (carregar (lit "in.csv") DEFAULT_CLASS other_world)) = 8%nat.
Proof.
  split.
  - destruct (carregar_draws_one_identifier_per_record (lit "in.csv") DEFAULT_CLASS
                sample_text sample_world eq_refl) as (_ & _ & Hn).
    cbn [bson sample_world world_of] in Hn. destruct Hn as [Hn _]. rewrite Hn.
    vm_compute. reflexivity.
  - destruct (carregar_draws_one_identifier_per_record (lit "in.csv") DEFAULT_CLASS
                sample_text other_world eq_refl) as (_ & _ & Hn).
    cbn [bson other_world] in Hn. destruct Hn as [Hn _]. rewrite Hn.
    vm_compute. reflexivity.
Defined.

(** ** Columns *)

Lemma dict_get_set {K V} `{EqDecision K} (k k' : K) (v : V) d :
  dict_get k (dict_set k' v d) = if decide (k = k') then Some v else dict_get k d.
Proof.
  induction d as [|[k0 v0] d IH]; cbn [dict_set dict_get].
  - destruct (decide (k = k')); reflexivity.
  - destruct (decide (k' = k0)) as [->|Hne]; cbn [dict_get].
    + destruct (decide (k = k0)); reflexivity.
    + destruct (decide (k = k0)) as [->|Hne'].
      * destruct (decide (k0 = k')); [congruence|reflexivity].
      * exact IH.
Qed.

(** The two passes of [DictReader] over the header: the fields the row
    has, then [None] for the columns it has not. *)
Lemma dict_get_passes k fieldnames : forall fields d,
  dict_get (Some k)
    (fold_left (fun d k => dict_set (Some k) CNone d) (drop (length fields) fieldnames)
       (fold_left (fun d '(k, v) => dict_set (Some k) (CStr v) d)
                  (combine fieldnames fields) d)) =
  match column_cell k fieldnames fields with
  | Some c => Some c
  | None => dict_get (Some k) d
  end.
Proof.
  induction fieldnames as [|name fieldnames IH]; intros fields d.
  - rewrite drop_nil. reflexivity.
  - destruct fields as [|f fields].
    + cbn [combine length drop fold_left column_cell tail].
      specialize (IH [] (dict_set (Some name) CNone d)).
      rewrite combine_nil in IH. cbn [length fold_left] in IH.
      change (drop 0 fieldnames) with fieldnames in IH. rewrite IH.
      destruct (column_cell k fieldnames []); [reflexivity|].
      rewrite dict_get_set.
      destruct (decide (Some k = Some name)) as [[= ->]|Hne].
      * rewrite bool_decide_eq_true_2 by reflexivity. reflexivity.
      * rewrite bool_decide_eq_false_2 by congruence. reflexivity.
    + cbn [combine length drop fold_left column_cell tail].
      rewrite IH.
      destruct (column_cell k fieldnames fields); [reflexivity|].
      rewrite dict_get_set.
      destruct (decide (Some k = Some name)) as [[= ->]|Hne].
      * rewrite bool_decide_eq_true_2 by reflexivity. reflexivity.
      * rewrite bool_decide_eq_false_2 by congruence. reflexivity.
Qed.

Lemma dict_get_row k fieldnames fields :
  dict_get (Some k) (dict_row fieldnames fields) = column_cell k fieldnames fields.
Proof.
  pose proof (dict_get_passes k fieldnames fields []) as Hp.
  cbn [dict_get] in Hp.
  assert (Hc : column_cell k fieldnames fields =
               match column_cell k fieldnames fields with Some c => Some c | None => None end)
    by (destruct (column_cell k fieldnames fields); reflexivity).
  rewrite Hc, <- Hp. clear Hc Hp. unfold dict_row.
  destruct (Nat.ltb_spec (length fieldnames) (length fields)) as [Hlt|Hge].
  - rewrite dict_get_set. destruct (decide (Some k = None)); [discriminate|].
    rewrite drop_ge by lia. reflexivity.
  - destruct (Nat.ltb_spec (length fields) (length fieldnames)) as [Hlt|Hge'].
    + reflexivity.
    + rewrite drop_ge by lia. reflexivity.
Qed.

Lemma get_column k fieldnames fields :
  get (dict_row fieldnames fields) k = Val (strip (column k fieldnames fields)).
Proof.
  unfold get, column. rewrite dict_get_row.
  destruct (column_cell k fieldnames fields) as [[s| |l]|] eqn:E; try reflexivity.
  pose proof (dict_get_ok _ _ _ (dict_row_ok fieldnames fields)
                (eq_trans (dict_get_row k fieldnames fields) E)) as Hok.
  destruct Hok.
Qed.

Lemma column_cell_absent k fieldnames : forall fields,
  ~ In k fieldnames -> column_cell k fieldnames fields = None.
Proof.
  induction fieldnames as [|name fieldnames IH]; intros fields Hk; [reflexivity|].
  cbn [column_cell]. rewrite IH by (intros Hin; apply Hk; right; exact Hin).
  rewrite bool_decide_eq_false_2; [reflexivity|].
  intros ->. apply Hk. left. reflexivity.
Qed.

Lemma column_cell_last k fieldnames : forall fields i,
  fieldnames !! i = Some k ->
  (forall j, (i < j)%nat -> fieldnames !! j <> Some k) ->
  column_cell k fieldnames fields =
    Some (match fields !! i with Some f => CStr f | None => CNone end).
Proof.
  induction fieldnames as [|name fieldnames IH]; intros fields i Hi Hlast; [discriminate|].
  cbn [column_cell]. destruct i as [|i].
  - injection Hi as ->.
    rewrite column_cell_absent.
    + rewrite bool_decide_eq_true_2 by reflexivity. destruct fields; reflexivity.
    + intros Hin. apply list_elem_of_In, list_elem_of_lookup in Hin as [j Hj].
      apply (Hlast (S j)); [lia|exact Hj].
  - rewrite (IH (tail fields) i Hi).
    + destruct fields; reflexivity.
    + intros j Hj. apply (Hlast (S j)). lia.
Qed.

(** X3.  [get] on a row of [DictReader] returns the trimmed field under
    the column of the given name.  Where several columns have the name
    the last one counts; where the header has no such column, or the row
    ends before it, the result is the empty string.  Fields beyond the
    header are ignored. *)
Theorem get_reads_column (fieldnames fields : list (list Z)) (k : list Z) :
  get (dict_row fieldnames fields) k = Val (strip (column k fieldnames fields)) /\
  (~ In k fieldnames -> column k fieldnames fields = []) /\
  (forall i,
     fieldnames !! i = Some k ->
     (forall j, (i < j)%nat -> fieldnames !! j <> Some k) ->
     column k fieldnames fields = default [] (fields !! i)).
Proof.
  split; [apply get_column|]. split.
  - intros Hk. unfold column. rewrite column_cell_absent by exact Hk. reflexivity.
  - intros i Hi Hlast. unfold column.
    rewrite (column_cell_last k fieldnames fields i Hi Hlast).
    destruct (fields !! i); reflexivity.
Qed.

Lemma get_reads_column_witness :
  get (dict_row [lit "valor"; lit "cedente"; lit "valor"] [lit "1"; lit " A "; lit "2"; lit "x"])
      (lit "valor") = Val (lit "2") /\
  get (dict_row [lit "valor"; lit "cedente"; lit "valor"] [lit "1"; lit " A "])
      (lit "valor") = Val [] /\
  get (dict_row [lit "valor"; lit "cedente"] [lit "1"; lit " A "]) (lit "pagador") = Val [].
Proof.
  split; [|split].
  - destruct (get_reads_column [lit "valor"; lit "cedente"; lit "valor"]
                [lit "1"; lit " A "; lit "2"; lit "x"] (lit "valor")) as (Hg & _ & Hc).
    rewrite Hg, (Hc 2%nat); [reflexivity|reflexivity|].
    intros j Hj. destruct j as [|[|[|j]]]; try lia; discriminate.
  - destruct (get_reads_column [lit "valor"; lit "cedente"; lit "valor"]
                [lit "1"; lit " A "] (lit "valor")) as (Hg & _ & Hc).
    rewrite Hg, (Hc 2%nat); [reflexivity|reflexivity|].
    intros j Hj. destruct j as [|[|[|j]]]; try lia; discriminate.
  - destruct (get_reads_column [lit "valor"; lit "cedente"] [lit "1"; lit " A "]
                (lit "pagador")) as (Hg & Ha & _).
    rewrite Hg, Ha; [reflexivity|].
    intros [E|[E|[]]]; discriminate.
Defined.

(** ** Dates and values of the documents *)

Lemma ascii_digit_not_space c : ascii_digit c = true -> is_space c = false.
Proof.
  unfold ascii_digit. rewrite in_range_spec. intros Hc. unfold is_space, in_range.
  repeat match goal with
         | |- context [?a <=? ?b] => destruct (Z.leb_spec a b); try lia
         | |- context [?a =? ?b] => destruct (Z.eqb_spec a b); try lia
         end; reflexivity.
Qed.

(** A padded date has no white space to trim. *)
Lemma padded_date_trimmed s : is_padded_date s = true -> strip s = s.
Proof.
  destruct s as [|d1 [|d2 [|s1 [|m1 [|m2 [|s2 [|y1 [|y2 [|y3 [|y4 [|]]]]]]]]]]];
    try discriminate.
  unfold is_padded_date, matches_ddmmyyyy. cbn [forallb].
  rewrite !andb_true_iff. intros [[[(D1 & _ & _ & _ & _ & _ & _ & Y4 & _) _] _] _].
  apply ascii_digit_not_space in D1, Y4.
  unfold strip. rewrite lstrip_keep by exact D1.
  unfold rstrip. cbn [rev app]. rewrite lstrip_keep by exact Y4. reflexivity.
Qed.




Section Trimmed.
Context `{Interpreter} `{Sniffer}.

Lemma parse_date_trimmed v s : parse_date_ddmmyyyy v = Val s -> strip s = s.
Proof.
  intros E. destruct (parse_date_shape v s E) as [->|Hp]; [reflexivity|].
  apply padded_date_trimmed, Hp.
Qed.

Lemma documents_trimmed rows docs :
  Forall row_ok rows ->
  Forall2 (fun r d => forall w0, fst (carregar_row r w0) = Val d) rows docs ->
  Forall (Forall (fun kv => trimmed (snd kv))) docs.
Proof.
  intros Hok Hdocs. induction Hdocs as [|r d rows docs Hd Hdocs IH]; [constructor|].
  inversion Hok; subst. constructor; [|apply IH; assumption].
  destruct (carregar_row_spec r) as (c & p & v & t & s & Hc & Hp & Hv & _ & Hs & Hrow);
    [assumption|].
  destruct (Hrow (world_of ∅)) as (w2 & Erow & _).
  specialize (Hd (world_of ∅)). rewrite Erow in Hd.
  injection Hd as <-.
  repeat constructor; cbn [snd trimmed];
    solve [eapply get_trimmed; eassumption | eapply parse_date_trimmed; eassumption].
Qed.

(** X5.  Every value of every document [carregar] returns is a text
    without white space at its ends. *)
Theorem document_values_are_trimmed
    (caminho_csv class_name : list Z) (w w' : world) (docs : list (list (list Z * pyval))) :
  carregar caminho_csv class_name w = (Val docs, w') ->
  Forall (Forall (fun kv => trimmed (snd kv))) docs.
Proof.
  intros Ecar.
  destruct (fs w !! Path caminho_csv) as [[text|]|] eqn:E.
  - destruct (carregar_file caminho_csv class_name text (fs w) E) as (docs' & Hdocs & Hrun).
    destruct (Hrun w eq_refl) as (w1 & _ & Ecar'). rewrite Ecar in Ecar'.
    destruct (snd (DictReader text (delimiter_of text))); [discriminate|].
    injection Ecar' as <- _.
    exact (documents_trimmed _ _ (DictReader_ok text (delimiter_of text)) Hdocs).
  - rewrite (carregar_directory _ _ _ E) in Ecar. discriminate.
  - rewrite (carregar_missing _ _ _ E) in Ecar. discriminate.
Qed.

End Trimmed.

Lemma document_values_are_trimmed_witness :
  exists w',
    carregar (lit "in.csv") DEFAULT_CLASS spaced_world =
      (Val [document (lit "Empresa A") (lit "Cliente B") (lit "150.00") (lit "05/03/2024")], w') /\
    Forall (Forall (fun kv => trimmed (snd kv)))
           [document (lit "Empresa A") (lit "Cliente B") (lit "150.00") (lit "05/03/2024")].
Proof.
  destruct (carregar (lit "in.csv") DEFAULT_CLASS spaced_world) as [r w'] eqn:E.
  assert (Er : r = Val [document (lit "Empresa A") (lit "Cliente B") (lit "150.00")
                                 (lit "05/03/2024")]).
  { change r with (fst (r, w')). rewrite <- E. vm_compute. reflexivity. }
  subst r. exists w'. split; [reflexivity|].
  exact (document_values_are_trimmed (lit "in.csv") DEFAULT_CLASS spaced_world w' _ E).
Defined.

(** ** The reader on written lines *)

Section WrittenLines.
Variable d : Z.
Hypothesis d_not_newline : is_newline d = false.
Hypothesis d_not_quote : d <> quotechar.

Lemma plain_char_step st acc cur c :
  field_start st \/ st = IN_FIELD ->
  negb (c =? d) && negb (c =? quotechar) && negb (is_newline c) = true ->
  Z.of_nat (length cur) < field_limit ->
  parse_process_char d (Reader st acc cur) (Some c) = Val (Reader IN_FIELD acc (cur ++ [c])).
Proof using Type.
  intros Hst Hc Hlen. rewrite !andb_true_iff, !negb_true_iff in Hc.
  destruct Hc as [[Hd Hq] Hn].
  unfold parse_process_char. cbv zeta. unfold parse_add_char.
  cbn [state field fields set_state].
  rewrite Hn, Hd, Hq.
  destruct (Z.leb_spec field_limit (Z.of_nat (length cur))) as [Hle|_];
    [exfalso; apply (Z.lt_irrefl field_limit), (Z.le_lt_trans _ _ _ Hle Hlen)|].
  destruct Hst as [[->| ->]| ->]; reflexivity.
Qed.

Lemma plain_field_steps f : forall st acc cur rest,
  field_start st \/ st = IN_FIELD ->
  plain d f = true ->
  Z.of_nat (length cur + length f) <= field_limit ->
  parse_line d (Reader st acc cur) (f ++ rest) =
  parse_line d (match f with [] => Reader st acc cur | _ => Reader IN_FIELD acc (cur ++ f) end)
             rest.
Proof using Type.
  induction f as [|c f IH]; intros st acc cur rest Hst Hf Hlen; [reflexivity|].
  cbn [plain forallb] in Hf. apply andb_true_iff in Hf as [Hc Hf].
  cbn [app parse_line length] in *.
  rewrite plain_char_step; [|exact Hst|exact Hc|].
  - cbn [bind].
    rewrite IH; [|right; reflexivity|exact Hf|].
    + rewrite <- app_assoc. cbn [app]. destruct f; reflexivity.
    + rewrite length_app. cbn [length].
      rewrite Nat.add_succ_r in Hlen. rewrite Nat.add_1_r. exact Hlen.
  - rewrite Nat.add_succ_r, Nat2Z.inj_succ in Hlen.
    apply (Z.lt_le_trans _ (Z.succ (Z.of_nat (length cur + length f)))); [|exact Hlen].
    apply Zle_lt_succ, inj_le, Nat.le_add_r.
Qed.

(** Between quotes every character is taken, a doubled quote as one
    quote, up to the closing quote. *)
Lemma quoted_chars_steps f : forall acc cur rest,
  Z.of_nat (length cur + length f) <= field_limit ->
  parse_line d (Reader IN_QUOTED_FIELD acc cur) (double_quotes f ++ quotechar :: rest) =
  parse_line d (Reader QUOTE_IN_QUOTED_FIELD acc (cur ++ f)) rest.
Proof using Type.
  induction f as [|c f IH]; intros acc cur rest Hlen.
  - rewrite app_nil_r. reflexivity.
  - assert (Hcur : Z.of_nat (length cur) < field_limit).
    { cbn [length] in Hlen. rewrite Nat.add_succ_r, Nat2Z.inj_succ in Hlen.
      apply (Z.lt_le_trans _ (Z.succ (Z.of_nat (length cur + length f)))); [|exact Hlen].
      apply Zle_lt_succ, inj_le, Nat.le_add_r. }
    assert (Hadd : parse_add_char c (Reader IN_QUOTED_FIELD acc cur) =
                   Val (Reader IN_QUOTED_FIELD acc (cur ++ [c]))).
    { unfold parse_add_char. cbn [field state fields].
      destruct (Z.leb_spec field_limit (Z.of_nat (length cur))) as [Hle|_]; [|reflexivity].
      exfalso. apply (Z.lt_irrefl field_limit), (Z.le_lt_trans _ _ _ Hle Hcur). }
    assert (Hnext : Z.of_nat (length (cur ++ [c]) + length f) <= field_limit).
    { rewrite length_app. cbn [length] in *.
      rewrite Nat.add_succ_r in Hlen. rewrite Nat.add_1_r. exact Hlen. }
    unfold double_quotes. cbn [flat_map]. fold (double_quotes f).
    destruct (Z.eqb_spec c quotechar) as [->|Hc].
    + cbn [app parse_line]. unfold parse_process_char at 1. cbn [state].
      rewrite Z.eqb_refl. cbn [bind set_state state fields field parse_line].
      unfold parse_process_char at 1. cbn [state]. rewrite Z.eqb_refl.
      unfold parse_add_char. cbn [field state fields set_state].
      destruct (Z.leb_spec field_limit (Z.of_nat (length cur))) as [Hle|_];
        [exfalso; apply (Z.lt_irrefl field_limit), (Z.le_lt_trans _ _ _ Hle Hcur)|].
      cbn [bind]. unfold set_state. cbn [state fields field].
      rewrite IH by exact Hnext. rewrite <- app_assoc. reflexivity.
    + cbn [app parse_line]. unfold parse_process_char at 1. cbn [state].
      destruct (Z.eqb_spec c quotechar); [contradiction|].
      rewrite Hadd. cbn [bind].
      rewrite IH by exact Hnext. rewrite <- app_assoc. reflexivity.
Qed.

(** A field is taken whole. *)
Lemma field_steps x st acc rest :
  field_start st -> field_ok d x ->
  parse_line d (Reader st acc []) (field_text x ++ rest) =
  parse_line d (after_field x st acc) rest.
Proof using d_not_quote.
  intros Hst [Hlen Hx]. destruct x as [f|f]; cbn [field_text field_value after_field] in *.
  - rewrite plain_field_steps; [|left; exact Hst|exact Hx|exact Hlen].
    destruct f; reflexivity.
  - rewrite <- !app_assoc. cbn [app parse_line].
    assert (Hopen : parse_process_char d (Reader st acc []) (Some quotechar) =
                    Val (Reader IN_QUOTED_FIELD acc [])).
    { destruct Hst as [->| ->]; reflexivity. }
    rewrite Hopen. cbn [bind]. apply quoted_chars_steps. exact Hlen.
Qed.

Lemma delimiter_step x st acc :
  field_start st ->
  parse_process_char d (after_field x st acc) (Some d) =
  Val (Reader START_FIELD (acc ++ [field_value x]) []).
Proof using d_not_newline d_not_quote.
  intros Hst. unfold parse_process_char. cbv zeta.
  destruct x as [[|c f]|f]; cbn [after_field field_value state field fields set_state];
    rewrite ?d_not_newline, ?Z.eqb_refl;
    destruct (Z.eqb_spec d quotechar) as [E|_]; try contradiction;
    try reflexivity.
  destruct Hst as [->| ->]; cbn [state]; rewrite ?d_not_newline, ?Z.eqb_refl;
    destruct (Z.eqb_spec d quotechar) as [E|_]; try contradiction; reflexivity.
Qed.

Lemma newline_not_delimiter c : is_newline c = true -> (c =? d) = false.
Proof using d_not_newline.
  intros Hc. destruct (Z.eqb_spec c d) as [->|]; [|reflexivity]. congruence.
Qed.

(** The end of a line after its last field. *)
Lemma line_end_steps x st acc eol :
  st = START_FIELD \/ (st = START_RECORD /\ x <> Unquoted []) ->
  In eol ([] :: line_ends) ->
  parse_line d (after_field x st acc) eol =
  Val (Reader START_RECORD (acc ++ [field_value x]) []).
Proof using d_not_newline.
  intros Hst Heol.
  pose proof (newline_not_delimiter 10 eq_refl) as H10.
  pose proof (newline_not_delimiter 13 eq_refl) as H13.
  destruct x as [[|c f]|f]; cbn [after_field field_value].
  - destruct Hst as [->|[_ Hne]]; [|congruence].
    destruct Heol as [<-|[<-|[<-|[<-|[]]]]]; reflexivity.
  - destruct Heol as [<-|[<-|[<-|[<-|[]]]]]; reflexivity.
  - destruct Heol as [<-|[<-|[<-|[<-|[]]]]]; cbn [parse_line];
      unfold parse_process_char at 1; cbn [state]; rewrite ?H10, ?H13; reflexivity.
Qed.

Lemma blank_line_steps eol :
  In eol line_ends -> parse_line d parse_reset eol = Val (Reader START_RECORD [] []).
Proof using Type. intros [<-|[<-|[<-|[]]]]; reflexivity. Qed.

Lemma row_steps r : forall x st acc eol,
  st = START_FIELD \/ (st = START_RECORD /\ x :: r <> [Unquoted []]) ->
  Forall (field_ok d) (x :: r) ->
  In eol ([] :: line_ends) ->
  parse_line d (Reader st acc []) (join [d] (map field_text (x :: r)) ++ eol) =
  Val (Reader START_RECORD (acc ++ map field_value (x :: r)) []).
Proof using d_not_newline d_not_quote.
  induction r as [|y r IH]; intros x st acc eol Hst Hrow Heol;
    inversion Hrow as [|? ? Hx Hrest]; subst.
  - cbn [map join].
    rewrite field_steps; [|destruct Hst as [->|[-> _]]; unfold field_start; auto|exact Hx].
    apply line_end_steps; [|exact Heol].
    destruct Hst as [->|[-> Hne]]; [left; reflexivity|right]. split; [reflexivity|congruence].
  - change (join [d] (map field_text (x :: y :: r)))
      with (field_text x ++ [d] ++ join [d] (map field_text (y :: r))).
    rewrite <- !app_assoc.
    rewrite field_steps; [|destruct Hst as [->|[-> _]]; unfold field_start; auto|exact Hx].
    cbn [app parse_line].
    rewrite delimiter_step by (destruct Hst as [->|[-> _]]; unfold field_start; auto).
    cbn [bind].
    rewrite IH; [|left; reflexivity|exact Hrest|exact Heol].
    rewrite <- app_assoc. reflexivity.
Qed.

(** A line is read as the values of its fields. *)
Lemma csv_line_steps r eol :
  row_written d r -> In eol line_ends \/ (eol = [] /\ r <> []) ->
  parse_line d parse_reset (csv_line d eol r) =
  Val (Reader START_RECORD (map field_value r) []).
Proof using d_not_newline d_not_quote.
  intros [Hne Hrow] Heol. unfold csv_line, parse_reset.
  destruct r as [|x r].
  - destruct Heol as [Heol|[_ Hr]]; [|congruence]. apply blank_line_steps, Heol.
  - apply (row_steps r x START_RECORD []).
    + right. split; [reflexivity|exact Hne].
    + exact Hrow.
    + destruct Heol as [Heol|[-> _]]; [right; exact Heol|left; reflexivity].
Qed.

Lemma plain_no_newline f : plain d f = true -> Forall (fun c => is_newline c = false) f.
Proof using Type.
  unfold plain. rewrite forallb_forall. intros Hf. apply List.Forall_forall.
  intros c Hc. specialize (Hf c Hc). rewrite !andb_true_iff, !negb_true_iff in Hf. tauto.
Qed.

Lemma double_quotes_no_newline f :
  Forall (fun c => is_newline c = false) f ->
  Forall (fun c => is_newline c = false) (double_quotes f).
Proof using Type.
  induction 1 as [|c f Hc Hf IH]; [constructor|].
  unfold double_quotes. cbn [flat_map]. fold (double_quotes f).
  destruct (c =? quotechar); repeat constructor; assumption.
Qed.

Lemma field_text_no_newline x :
  field_ok d x -> Forall (fun c => is_newline c = false) (field_text x).
Proof using Type.
  intros [_ Hx]. destruct x as [f|f]; cbn [field_text].
  - apply plain_no_newline, Hx.
  - apply Forall_app. split; [repeat constructor|].
    apply Forall_app. split; [apply double_quotes_no_newline, Hx|repeat constructor].
Qed.

Lemma join_no_newline r :
  Forall (field_ok d) r -> Forall (fun c => is_newline c = false) (join [d] (map field_text r)).
Proof using d_not_newline.
  induction r as [|x [|y r] IH]; intros Hr; inversion Hr as [|? ? Hx Hrest]; subst.
  - constructor.
  - cbn [map join]. apply field_text_no_newline, Hx.
  - change (join [d] (map field_text (x :: y :: r)))
      with (field_text x ++ [d] ++ join [d] (map field_text (y :: r))).
    apply Forall_app. split; [apply field_text_no_newline, Hx|].
    apply Forall_app. split; [repeat constructor; exact d_not_newline|apply IH, Hrest].
Qed.

Lemma join_not_nil r : r <> [] -> r <> [Unquoted []] -> join [d] (map field_text r) <> [].
Proof using Type.
  destruct r as [|x [|y r]]; [congruence| |].
  - intros _ Hne. cbn [map join].
    destruct x as [[|c f]|f]; cbn [field_text app]; [congruence|discriminate|discriminate].
  - intros _ _.
    change (join [d] (map field_text (x :: y :: r)))
      with (field_text x ++ [d] ++ join [d] (map field_text (y :: r))).
    destruct (field_text x); discriminate.
Qed.

(** The lines of a text that starts with a line. *)
Lemma readlines_line body : forall cur eol rest,
  Forall (fun c => is_newline c = false) body ->
  In eol line_ends ->
  (eol = [13] -> head rest <> Some 10) ->
  readlines (body ++ eol ++ rest) cur = (cur ++ body ++ eol) :: readlines rest [].
Proof using Type.
  induction body as [|c body IH]; intros cur eol rest Hbody Heol Hrest.
  - cbn [app]. destruct Heol as [<-|[<-|[<-|[]]]]; cbn [app readlines Z.eqb Pos.eqb].
    + reflexivity.
    + reflexivity.
    + destruct rest as [|c' rest]; [|].
      * reflexivity.
      * destruct (Z.eqb_spec c' 10) as [->|_]; [|reflexivity].
        exfalso. apply Hrest; reflexivity.
  - inversion Hbody as [|? ? Hc Hbody']; subst.
    unfold is_newline in Hc. apply orb_false_iff in Hc as [H10 H13].
    cbn [app readlines]. rewrite H10, H13.
    rewrite IH by assumption. rewrite <- !app_assoc. reflexivity.
Qed.

Lemma readlines_skip body : forall cur rest,
  Forall (fun c => is_newline c = false) body ->
  readlines (body ++ rest) cur = readlines rest (cur ++ body).
Proof using Type.
  induction body as [|c body IH]; intros cur rest Hbody.
  - rewrite app_nil_r. reflexivity.
  - inversion Hbody as [|? ? Hc Hbody']; subst.
    unfold is_newline in Hc. apply orb_false_iff in Hc as [H10 H13].
    cbn [app readlines]. rewrite H10, H13, IH by assumption.
    rewrite <- app_assoc. reflexivity.
Qed.

Lemma readlines_last body : forall cur,
  Forall (fun c => is_newline c = false) body -> cur ++ body <> [] ->
  readlines body cur = [cur ++ body].
Proof using Type.
  intros cur Hbody Hne.
  rewrite <- (app_nil_r body) at 1. rewrite readlines_skip by exact Hbody.
  cbn [readlines]. destruct (cur ++ body); [congruence|reflexivity].
Qed.

Lemma readlines_first rest : forall cur,
  cur <> [] -> exists x lines, readlines rest cur = (cur ++ x) :: lines.
Proof using Type.
  induction rest as [|c rest IH]; intros cur Hcur.
  - exists [], []. cbn [readlines]. rewrite app_nil_r. destruct cur; [congruence|reflexivity].
  - cbn [readlines]. destruct (c =? 10); [eauto|].
    destruct (c =? 13).
    + destruct rest as [|c' rest]; [eauto|]. destruct (c' =? 10); eauto.
    + destruct (IH (cur ++ [c])) as (x & lines & ->); [destruct cur; discriminate|].
      exists (c :: x), lines. rewrite <- app_assoc. reflexivity.
Qed.

Lemma line_head r rest :
  Forall (field_ok d) r -> head (join [d] (map field_text r) ++ 13 :: rest) <> Some 10.
Proof using d_not_newline.
  intros Hr. pose proof (join_no_newline r Hr) as Hj.
  destruct (join [d] (map field_text r)) as [|c s]; [discriminate|].
  inversion Hj as [|? ? Hc _]; subst. cbn. intros [= ->]. discriminate.
Qed.

(** The reader on a file that starts with written lines: their rows,
    then what the rest of the file gives. *)
Lemma reader_rows_prefix eol rows rest :
  In eol line_ends ->
  Forall (row_written d) rows ->
  (eol = [13] -> head rest <> Some 10) ->
  reader_rows d (readlines (csv_text d eol rows ++ rest) []) parse_reset =
  (map (map field_value) rows ++ fst (reader_rows d (readlines rest []) parse_reset),
   snd (reader_rows d (readlines rest []) parse_reset)).
Proof using d_not_newline d_not_quote.
  intros Heol Hrows Hrest. induction Hrows as [|r rows Hr Hrows IH].
  - cbn [csv_text flat_map app map]. destruct (reader_rows d (readlines rest []) parse_reset).
    reflexivity.
  - cbn [csv_text flat_map]. unfold csv_line at 1. rewrite <- !app_assoc.
    rewrite readlines_line; [|apply join_no_newline, Hr|exact Heol|].
    + cbn [app reader_rows].
      pose proof (csv_line_steps r eol Hr (or_introl Heol)) as E.
      unfold csv_line in E. rewrite E. cbn [state fields].
      fold (csv_text d eol rows). rewrite IH. reflexivity.
    + intros ->. destruct Hrows as [|r' rows' [_ Hr'] _].
      * cbn [flat_map app]. apply Hrest. reflexivity.
      * cbn [flat_map]. unfold csv_line at 1. rewrite <- !app_assoc.
        apply line_head, Hr'.
Qed.

(** The reader on a file of written lines, the last of which may lack its
    line end. *)
Lemma reader_rows_written eol rows last :
  In eol line_ends ->
  Forall (row_written d) rows ->
  match last with Some r => row_written d r /\ r <> [] | None => True end ->
  reader_rows d
    (readlines (csv_text d eol rows ++
                match last with Some r => csv_line d [] r | None => [] end) [])
    parse_reset =
  (map (map field_value) (rows ++ match last with Some r => [r] | None => [] end), None).
Proof using d_not_newline d_not_quote.
  intros Heol Hrows Hlast. rewrite map_app. destruct last as [r|].
  - destruct Hlast as [Hr Hne].
    pose proof (join_no_newline r (proj2 Hr)) as Hj.
    pose proof (join_not_nil r Hne (proj1 Hr)) as Hn.
    pose proof (csv_line_steps r [] Hr (or_intror (conj eq_refl Hne))) as E.
    unfold csv_line in *. rewrite app_nil_r in *.
    rewrite reader_rows_prefix; [|exact Heol|exact Hrows|].
    + rewrite readlines_last by (cbn [app]; assumption).
      cbn [app reader_rows]. rewrite E. reflexivity.
    + intros _. destruct (join [d] (map field_text r)) as [|c s]; [congruence|].
      inversion Hj as [|? ? Hc _]; subst. cbn. intros [= ->]. discriminate.
  - rewrite reader_rows_prefix; [|exact Heol|exact Hrows|discriminate].
    reflexivity.
Qed.

(** A plain field longer than the field limit stops the reader. *)
Lemma long_field_steps f x :
  plain d f = true -> field_limit < Z.of_nat (length f) ->
  parse_line d parse_reset (f ++ x) =
  Raise (CsvError (lit "field larger than field limit (131072)")).
Proof using Type.
  intros Hf Hlen.
  assert (exists n, Z.of_nat n = field_limit) as [n Hn].
  { exists (Z.to_nat field_limit). apply Z2Nat.id. discriminate. }
  rewrite <- (take_drop n f) in Hf |- *.
  unfold plain in Hf. rewrite forallb_app in Hf. apply andb_true_iff in Hf as [H1 H2].
  assert (L1 : length (take n f) = n) by (rewrite length_take; lia).
  destruct (drop n f) as [|c f2] eqn:E2.
  { apply (f_equal length) in E2. rewrite length_drop in E2. cbn [length] in E2. lia. }
  cbn [forallb] in H2. apply andb_true_iff in H2 as [Hc _].
  rewrite <- app_assoc. unfold parse_reset.
  rewrite plain_field_steps; [|left; left; reflexivity|exact H1|cbn [length]; lia].
  destruct (take n f) as [|c1 f1] eqn:E1.
  { cbn [length] in L1. unfold field_limit in Hn. lia. }
  cbn [app parse_line].
  rewrite !andb_true_iff, !negb_true_iff in Hc. destruct Hc as [[Hd Hq] Hnl].
  unfold parse_process_char. cbv zeta. cbn [state]. rewrite Hnl, Hd.
  unfold parse_add_char. cbn [field].
  destruct (Z.leb_spec field_limit (Z.of_nat (length (c1 :: f1)))); [reflexivity|lia].
Qed.

Lemma reader_rows_long f rest :
  plain d f = true -> field_limit < Z.of_nat (length f) ->
  reader_rows d (readlines (f ++ rest) []) parse_reset =
  ([], Some (CsvError (lit "field larger than field limit (131072)"))).
Proof using Type.
  intros Hf Hlen. rewrite readlines_skip by (apply plain_no_newline, Hf). cbn [app].
  destruct (readlines_first rest f) as (x & lines & ->).
  { intros ->. cbn [length] in Hlen. unfold field_limit in Hlen. lia. }
  cbn [reader_rows]. rewrite long_field_steps by assumption. reflexivity.
Qed.

End WrittenLines.

(** ** Files as they are written *)

(** X6.  The reader inverts the writing of a file.  For a delimiter
    that is no line end and no quote, and lines ending in LF, CRLF or CR
    (the last line may lack its end), whose fields are written plain or
    between quotes with the quotes inside doubled, [csv.reader] yields
    the values of the fields row by row, blank lines as empty rows, and
    [DictReader] the dictionaries of the rows after the first that are
    not blank, under the first row as header. *)
Theorem reader_reads_written_lines (d : Z) (eol : list Z) (rows : list (list csv_field))
    (last : option (list csv_field)) :
  is_newline d = false -> d <> quotechar ->
  In eol line_ends -> rows_written d rows last ->
  csv_reader (csv_file d eol rows last) d = (rows_of rows last, None) /\
  DictReader (csv_file d eol rows last) d =
    (match rows_of rows last with
     | [] => []
     | fieldnames :: data => map (dict_row fieldnames) (List.filter nonblank data)
     end, None).
Proof.
  intros Hn Hq Heol [Hrows Hlast].
  assert (E : csv_reader (csv_file d eol rows last) d = (rows_of rows last, None))
    by (apply (reader_rows_written d Hn Hq eol rows last Heol Hrows Hlast)).
  split; [exact E|]. unfold DictReader. rewrite E.
  destruct (rows_of rows last); reflexivity.
Qed.

Lemma reader_reads_written_lines_witness :
  csv_reader (lit "a;b" ++ [13; 10] ++ [13; 10] ++
              lit ";" ++ [34] ++ lit "x;" ++ [34; 34] ++ lit "y" ++ [34] ++ lit ";" ++ [13; 10] ++
              lit "1;2;3") 59 =
    ([[lit "a"; lit "b"]; []; [[]; lit "x;" ++ [34] ++ lit "y"; []];
      [lit "1"; lit "2"; lit "3"]], None).
Proof.
  refine (proj1 (reader_reads_written_lines 59 [13; 10]
                   [[Unquoted (lit "a"); Unquoted (lit "b")]; [];
                    [Unquoted []; Quoted (lit "x;" ++ [34] ++ lit "y"); Unquoted []]]
                   (Some [Unquoted (lit "1"); Unquoted (lit "2"); Unquoted (lit "3")])
                   eq_refl _ _ _)).
  - discriminate.
  - right. left. reflexivity.
  - split; [|split; [|discriminate]].
    + repeat constructor; try discriminate; vm_compute; discriminate.
    + split; [discriminate|]. repeat constructor; vm_compute; discriminate.
Defined.

Section WrittenFiles.
Context `{Interpreter} `{Sniffer}.

Lemma parse_date_strip v : parse_date_ddmmyyyy (strip v) = parse_date_ddmmyyyy v.
Proof. unfold parse_date_ddmmyyyy. rewrite strip_idem. reflexivity. Qed.

(** The document of a row is made of its columns by name. *)
Lemma carregar_row_document fieldnames fields w :
  fst (carregar_row (dict_row fieldnames fields) w) = Val (row_document fieldnames fields).
Proof.
  destruct (carregar_row_spec (dict_row fieldnames fields) (dict_row_ok _ _))
    as (c & p & v & t & s & Hc & Hp & Hv & Ht & Hs & Hrow).
  destruct (Hrow w) as (w' & -> & _). cbn [fst].
  rewrite get_column in Hc, Hp, Hv, Ht.
  injection Hc as <-. injection Hp as <-. injection Hv as <-. injection Ht as <-.
  unfold row_document. rewrite parse_date_strip in Hs. rewrite Hs. reflexivity.
Qed.

Lemma documents_of_rows fieldnames data docs :
  Forall2 (fun r d => forall w0, fst (carregar_row r w0) = Val d)
          (map (dict_row fieldnames) data) docs ->
  docs = map (row_document fieldnames) data.
Proof.
  revert docs. induction data as [|r data IH]; intros docs Hdocs;
    inversion Hdocs as [|? d ? docs' Hd Hrest]; subst; [reflexivity|].
  cbn [map]. f_equal; [|apply IH, Hrest].
  specialize (Hd (world_of ∅)). rewrite carregar_row_document in Hd. congruence.
Qed.

Lemma delimiter_of_usable text :
  is_newline (delimiter_of text) = false /\ delimiter_of text <> quotechar.
Proof.
  unfold delimiter_of.
  destruct (sniff_delimiter_spec (take 2048 text)) as (d & -> & Hin & _).
  destruct Hin as [<-|[<-|[<-|[<-|[]]]]]; split; solve [discriminate | reflexivity].
Qed.

(** A file of written lines gives the documents of its rows. *)
Lemma carregar_written caminho_csv class_name w d eol rows last :
  fs w !! Path caminho_csv = Some (File (csv_file d eol rows last)) ->
  delimiter_of (csv_file d eol rows last) = d ->
  In eol line_ends -> rows_written d rows last ->
  exists w',
    same_files w w' /\
    carregar caminho_csv class_name w =
      (Val (documents_of (rows_of rows last)),
       add_stdout [extracted (length (documents_of (rows_of rows last)))] w').
Proof.
  intros E Hd Heol [Hrows Hlast].
  destruct (delimiter_of_usable (csv_file d eol rows last)) as [Hn Hq]. rewrite Hd in Hn, Hq.
  pose proof (reader_rows_written d Hn Hq eol rows last Heol Hrows Hlast) as Er.
  fold (csv_file d eol rows last) in Er. fold (rows_of rows last) in Er.
  fold (csv_reader (csv_file d eol rows last) d) in Er.
  destruct (carregar_file caminho_csv class_name _ (fs w) E) as (docs & Hdocs & Hrun).
  destruct (Hrun w eq_refl) as (w' & Hw & Ecar). exists w'. split; [exact Hw|].
  rewrite Hd in Hdocs, Ecar. unfold DictReader in Hdocs, Ecar. rewrite Er in Hdocs, Ecar.
  assert (Edocs : docs = documents_of (rows_of rows last)).
  { unfold documents_of. destruct (rows_of rows last) as [|fieldnames data].
    - cbn [fst] in Hdocs. inversion Hdocs. reflexivity.
    - cbn [fst] in Hdocs. apply documents_of_rows, Hdocs. }
  rewrite <- Edocs. destruct (rows_of rows last); exact Ecar.
Qed.

(** X7.  For a file of lines of fields, plain or between quotes, written
    with the delimiter the detection finds, [carregar] returns, for each
    row after the header that is not blank and in the order of the file,
    the document of its columns by name: [cedente], [pagador] and [valor]
    trimmed, [vencimento] as [parse_date_ddmmyyyy] gives it; it changes
    no file and prints the number of documents. *)
Theorem carregar_written_file (caminho_csv class_name : list Z) (w : world)
    (d : Z) (eol : list Z) (rows : list (list csv_field)) (last : option (list csv_field)) :
  fs w !! Path caminho_csv = Some (File (csv_file d eol rows last)) ->
  delimiter_of (csv_file d eol rows last) = d ->
  In eol line_ends -> rows_written d rows last ->
  exists w',
    carregar caminho_csv class_name w = (Val (documents_of (rows_of rows last)), w') /\
    fs w' = fs w /\
    stdout w' = stdout w ++ [extracted (length (documents_of (rows_of rows last)))].
Proof.
  intros E Hd Heol Hrows.
  destruct (carregar_written caminho_csv class_name w d eol rows last E Hd Heol Hrows)
    as (w' & [Hfs Hout] & Ecar).
  eexists. split; [exact Ecar|]. split; [exact Hfs|].
  cbn [stdout add_stdout]. rewrite Hout. reflexivity.
Qed.

End WrittenFiles.

Lemma carregar_written_file_witness :
  exists w',
    carregar (lit "in.csv") DEFAULT_CLASS columns_world =
      (Val [document (lit "Silva | Filho") [] [] (lit "01/02/2024"); document [] [] [] []], w').
Proof.
  destruct (carregar_written_file (lit "in.csv") DEFAULT_CLASS columns_world 124 [13; 10]
              [[Unquoted (lit "vencimento"); Unquoted (lit "nota"); Unquoted (lit "cedente")];
               [Unquoted (lit "1/2/2024"); Unquoted (lit "x"); Quoted (lit " Silva | Filho ");
                Unquoted (lit "y")];
               []]
              (Some [Unquoted (lit "31/02/2024")])) as (w' & E & _).
  - reflexivity.
  - vm_compute. reflexivity.
  - right. left. reflexivity.
  - split; [|split; [|discriminate]].
    + repeat constructor; try discriminate; vm_compute; discriminate.
    + split; [discriminate|]. repeat constructor; vm_compute; discriminate.
  - exists w'. rewrite E. f_equal.
Defined.

(** ** Runs *)

Section Runs.
Context `{Interpreter} `{Sniffer}.

(** A run on a file the reader goes through, when the output can be
    opened. *)
Lemma run_success input_csv output_json class_name text w :
  fs w !! Path input_csv = Some (File text) ->
  snd (DictReader text (delimiter_of text)) = None ->
  create_error (fs w) output_json = None ->
  exists docs w',
    Forall2 (fun r d => forall w0, fst (carregar_row r w0) = Val d)
            (fst (DictReader text (delimiter_of text))) docs /\
    run input_csv output_json class_name w = (Val 0, w') /\
    fs w' = <[output_json := File (json_dumps docs)]> (fs w) /\
    stdout w' = stdout w ++ [extracted (length docs); written output_json].
Proof.
  intros E Herr Hc.
  destruct (carregar_file input_csv class_name text (fs w) E) as (docs & Hdocs & Hrun).
  destruct (Hrun w eq_refl) as (w1 & [F1 O1] & Ecar). rewrite Herr in Ecar.
  exists docs. eexists. split; [exact Hdocs|].
  rewrite (run_returns _ _ _ _ _ _ Ecar). cbn [fs add_stdout]. rewrite F1, Hc.
  split; [reflexivity|]. cbn [fs stdout set_fs add_stdout]. rewrite O1, <- app_assoc.
  split; reflexivity.
Qed.

(** The documents are fixed by the rows. *)
Lemma documents_unique rows docs1 docs2 :
  Forall2 (fun r d => forall w0 : world, fst (carregar_row r w0) = Val d) rows docs1 ->
  Forall2 (fun r d => forall w0 : world, fst (carregar_row r w0) = Val d) rows docs2 ->
  docs1 = docs2.
Proof.
  intros H1. revert docs2. induction H1 as [|r d rows docs1 Hd H1 IH]; intros docs2 H2;
    inversion H2 as [|? d' ? docs2' Hd' H2']; subst; [reflexivity|].
  f_equal; [|apply IH, H2'].
  specialize (Hd (world_of ∅)). specialize (Hd' (world_of ∅)). congruence.
Qed.

(** X8.  An input without records (an empty file, a header alone, blank
    lines after it) is no error: [main] returns 0, writes the empty array
    to the output and reports 0 records. *)
Theorem no_records_gives_empty_array (argv : list (list Z)) (input_csv output_json text : list Z)
    (w : world) :
  arguments argv = Some (input_csv, output_json) ->
  fs w !! Path input_csv = Some (File text) ->
  Z.of_nat (length text) <= field_limit ->
  data_rows text = [] ->
  create_error (fs w) output_json = None ->
  exists w',
    main argv w = (Val 0, w') /\
    fs w' = <[output_json := File (lit "[]")]> (fs w) /\
    stdout w' = stdout w ++ [extracted 0; written output_json].
Proof.
  intros Ha E Hlen Hrows Hc.
  destruct (run_success input_csv output_json
              (match argv with [_; _; _; class_name] => class_name | _ => DEFAULT_CLASS end)
              text w E (DictReader_total text _ Hlen) Hc)
    as (docs & w' & Hdocs & Erun & Hfs & Hout).
  assert (Edocs : docs = []).
  { apply Forall2_length in Hdocs. rewrite DictReader_length in Hdocs.
    unfold data_rows in Hrows. rewrite Hrows in Hdocs. destruct docs; [reflexivity|discriminate]. }
  subst docs. exists w'. rewrite main_arguments, Ha. auto.
Qed.


(** X10.  [main] does not check that the output differs from the input:
    given the same path for both it returns 0 and the input file is
    replaced by the serialised documents; every other file is
    unchanged. *)
Theorem output_over_input (program path text : list Z) (w : world) :
  Path path = path ->
  fs w !! path = Some (File text) ->
  snd (DictReader text (delimiter_of text)) = None ->
  exists docs w',
    main [program; path; path] w = (Val 0, w') /\
    fst (carregar path DEFAULT_CLASS w) = Val docs /\
    fs w' !! path = Some (File (json_dumps docs)) /\
    forall p, p <> path -> fs w' !! p = fs w !! p.
Proof.
  intros Hp E Herr.
  assert (E' : fs w !! Path path = Some (File text)) by (rewrite Hp; exact E).
  assert (Hc : create_error (fs w) path = None).
  { unfold create_error. rewrite E. destruct path; [|reflexivity].
    vm_compute in Hp. discriminate. }
  destruct (run_success path path DEFAULT_CLASS text w E' Herr Hc)
    as (docs & w' & Hdocs & Erun & Hfs & _).
  exists docs, w'. split; [exact Erun|]. split.
  - destruct (carregar_file path DEFAULT_CLASS text (fs w) E') as (docs' & Hdocs' & Hrun).
    destruct (Hrun w eq_refl) as (w1 & _ & ->). rewrite Herr. cbn [fst].
    f_equal. exact (documents_unique _ _ _ Hdocs' Hdocs).
  - rewrite Hfs. split; [apply lookup_insert_eq|].
    intros p Hne. apply lookup_insert_ne. congruence.
Qed.


End Runs.

Lemma no_records_gives_empty_array_witness :
  (exists w',
     main [lit "main.py"; lit "vazio.csv"; lit "out.json"] empty_world = (Val 0, w') /\
     fs w' !! lit "out.json" = Some (File (lit "[]"))) /\
  (exists w',
     main [lit "main.py"; lit "titulos.csv"; lit "out.json"] empty_world = (Val 0, w') /\
     fs w' !! lit "out.json" = Some (File (lit "[]"))).
Proof.
  split.
  - destruct (no_records_gives_empty_array [lit "main.py"; lit "vazio.csv"; lit "out.json"]
                (lit "vazio.csv") (lit "out.json") [] empty_world)
      as (w' & E & Hfs & _); try reflexivity.
    + vm_compute. discriminate.
    + exists w'. split; [exact E|]. rewrite Hfs. apply lookup_insert_eq.
  - destruct (no_records_gives_empty_array [lit "main.py"; lit "titulos.csv"; lit "out.json"]
                (lit "titulos.csv") (lit "out.json") (lit "cedente;valor" ++ [10]) empty_world)
      as (w' & E & Hfs & _); try reflexivity.
    + vm_compute. discriminate.
    + exists w'. split; [exact E|]. rewrite Hfs. apply lookup_insert_eq.
Defined.


Lemma output_over_input_witness :
  exists w',
    main [lit "main.py"; lit "in.csv"; lit "in.csv"] sample_world = (Val 0, w') /\
    fs w' !! lit "in.csv" =
      Some (File (json_dumps [document (lit "Empresa A") (lit "Cliente B")
                                       (lit "150.00") (lit "15/03/2024")])).
Proof.
  destruct (output_over_input (lit "main.py") (lit "in.csv") sample_text sample_world)
    as (docs & w' & E & Hdocs & Hfs & _); try reflexivity.
  exists w'. split; [exact E|]. rewrite Hfs.
  vm_compute in Hdocs. injection Hdocs as <-. reflexivity.
Defined.


(** ** The text of the output *)

Lemma json_unescape_escape c r : json_unescape (json_escape c ++ r) = Some (c, r).
Proof.
  unfold json_escape.
  destruct (Z.eqb_spec c 34) as [->|H34]; [reflexivity|].
  destruct (Z.eqb_spec c 92) as [->|H92]; [reflexivity|].
  destruct (Z.eqb_spec c 10) as [->|H10]; [reflexivity|].
  destruct (Z.eqb_spec c 13) as [->|H13]; [reflexivity|].
  destruct (Z.eqb_spec c 9) as [->|H9]; [reflexivity|].
  destruct (Z.eqb_spec c 8) as [->|H8]; [reflexivity|].
  destruct (Z.eqb_spec c 12) as [->|H12]; [reflexivity|].
  destruct (in_range 0 31 c) eqn:Hr.
  - apply in_range_spec in Hr. small_cases c; reflexivity.
  - cbn [app json_unescape].
    destruct (Z.eqb_spec c 34); [contradiction|].
    destruct (Z.eqb_spec c 92); [contradiction|]. reflexivity.
Qed.

(** The text of a string of the output ends at its closing quote and
    nowhere before: two strings that start the same text are the same. *)
Lemma json_escape_prefix s1 : forall s2 r1 r2,
  flat_map json_escape s1 ++ 34 :: r1 = flat_map json_escape s2 ++ 34 :: r2 ->
  s1 = s2 /\ r1 = r2.
Proof.
  induction s1 as [|c1 s1 IH]; intros [|c2 s2] r1 r2 E; cbn [flat_map] in E;
    rewrite <- ?app_assoc in E.
  - injection E as ->. auto.
  - apply (f_equal json_unescape) in E. rewrite json_unescape_escape in E. discriminate.
  - apply (f_equal json_unescape) in E. rewrite json_unescape_escape in E. discriminate.
  - apply (f_equal json_unescape) in E. rewrite !json_unescape_escape in E.
    injection E as -> E. apply IH in E as [-> ->]. auto.
Qed.

Lemma json_object_document c p v s r :
  json_object (document c p v s) ++ r =
  (lit "{" ++ [10] ++ lit "    " ++ member_start "cedente") ++
  flat_map json_escape c ++ 34 ::
  (lit "," ++ [10] ++ lit "    " ++ member_start "pagador") ++
  flat_map json_escape p ++ 34 ::
  (lit "," ++ [10] ++ lit "    " ++ member_start "valor") ++
  flat_map json_escape v ++ 34 ::
  (lit "," ++ [10] ++ lit "    " ++ member_start "vencimento") ++
  flat_map json_escape s ++ 34 :: [10] ++ lit "  }" ++ r.
Proof.
  unfold json_object, document, json_member. cbn [map join fst snd json_value].
  unfold json_string. rewrite <- !app_assoc. reflexivity.
Qed.

Lemma json_object_prefix c p v s c' p' v' s' r r' :
  json_object (document c p v s) ++ r = json_object (document c' p' v' s') ++ r' ->
  document c p v s = document c' p' v' s' /\ r = r'.
Proof.
  rewrite !json_object_document. intros E.
  apply app_inv_head, json_escape_prefix in E as [-> E].
  apply app_inv_head, json_escape_prefix in E as [-> E].
  apply app_inv_head, json_escape_prefix in E as [-> E].
  apply app_inv_head, json_escape_prefix in E as [-> E].
  apply app_inv_head, app_inv_head in E. auto.
Qed.

Lemma json_dumps_cons d ds :
  json_dumps (d :: ds) = lit "[" ++ [10] ++ lit "  " ++ json_object d ++ json_rest ds.
Proof.
  unfold json_dumps. do 3 f_equal. revert d.
  induction ds as [|d' ds IH]; intros d; [reflexivity|].
  change (map json_object (d :: d' :: ds)) with (json_object d :: map json_object (d' :: ds)).
  change (join ?sep (?x :: map json_object (d' :: ds)))
    with (x ++ sep ++ join sep (map json_object (d' :: ds))).
  rewrite <- !app_assoc. rewrite IH. reflexivity.
Qed.

Lemma document_ok_inv d : document_ok d -> exists c p v s, d = document c p v s.
Proof.
  intros (Hk & Hv & _).
  destruct d as [|[k1 [c|]] [|[k2 [p|]] [|[k3 [v|]] [|[k4 [s|]] [|]]]]]; try discriminate.
  injection Hk as -> -> -> ->. eauto.
Qed.

Lemma json_rest_injective ds1 : forall ds2,
  Forall document_ok ds1 -> Forall document_ok ds2 ->
  json_rest ds1 = json_rest ds2 -> ds1 = ds2.
Proof.
  induction ds1 as [|d1 ds1 IH]; intros [|d2 ds2] H1 H2 E; try discriminate; [reflexivity|].
  inversion H1 as [|? ? Hd1 H1']; inversion H2 as [|? ? Hd2 H2']; subst.
  destruct (document_ok_inv d1 Hd1) as (c & p & v & s & ->).
  destruct (document_ok_inv d2 Hd2) as (c' & p' & v' & s' & ->).
  cbn [json_rest] in E. apply app_inv_head in E. apply app_inv_head in E.
  apply app_inv_head in E.
  apply json_object_prefix in E as [-> E]. f_equal. apply IH; assumption.
Qed.

(** X12.  The output file determines the documents: two lists of
    documents with the same serialisation are the same list. *)
Theorem json_dumps_is_injective (docs1 docs2 : list (list (list Z * pyval))) :
  Forall document_ok docs1 -> Forall document_ok docs2 ->
  json_dumps docs1 = json_dumps docs2 -> docs1 = docs2.
Proof.
  intros H1 H2 E.
  destruct docs1 as [|d1 ds1], docs2 as [|d2 ds2]; [reflexivity| | |].
  - rewrite json_dumps_cons in E. discriminate.
  - rewrite json_dumps_cons in E. discriminate.
  - rewrite !json_dumps_cons in E.
    inversion H1 as [|? ? Hd1 H1']; inversion H2 as [|? ? Hd2 H2']; subst.
    destruct (document_ok_inv d1 Hd1) as (c & p & v & s & ->).
    destruct (document_ok_inv d2 Hd2) as (c' & p' & v' & s' & ->).
    apply app_inv_head in E. apply app_inv_head in E. apply app_inv_head in E.
    apply json_object_prefix in E as [-> E]. f_equal.
    apply json_rest_injective; assumption.
Qed.

Lemma json_dumps_is_injective_witness :
  [document (lit "A") (lit "B") (lit "1") []] = [document (lit "A") (lit "B") (lit "1") []].
Proof.
  apply json_dumps_is_injective.
  - repeat constructor.
  - repeat constructor.
  - reflexivity.
Defined.

Lemma json_escape_no_control c : Forall (fun x => in_range 0 31 x = false) (json_escape c).
Proof.
  unfold json_escape.
  repeat match goal with
         | |- context [if ?a =? ?b then _ else _] =>
             destruct (Z.eqb_spec a b); [repeat constructor|]
         end.
  destruct (in_range 0 31 c) eqn:Hr.
  - apply in_range_spec in Hr. small_cases c; repeat constructor.
  - repeat constructor. exact Hr.
Qed.

Lemma json_escape_plain c : json_plain c = true -> json_escape c = [c].
Proof.
  unfold json_plain. rewrite !andb_true_iff, !negb_true_iff. intros [[H34 H92] Hr].
  unfold json_escape. rewrite H34, H92, Hr.
  assert (Hc : ~ 0 <= c <= 31).
  { intros Hc. apply in_range_spec in Hc. congruence. }
  repeat match goal with
         | |- context [if ?a =? ?b then _ else _] =>
             destruct (Z.eqb_spec a b); [exfalso; lia|]
         end.
  reflexivity.
Qed.

(** X13.  A string of the output holds no control character, and a text
    without double quote, backslash and control character is written as
    it is between two double quotes, its non-ASCII characters
    included. *)
Theorem json_string_keeps_text (s : list Z) :
  Forall (fun x => in_range 0 31 x = false) (json_string s) /\
  (forallb json_plain s = true -> json_string s = [34] ++ s ++ [34]).
Proof.
  split.
  - unfold json_string. apply Forall_app. split; [repeat constructor|].
    apply Forall_app. split; [|repeat constructor].
    induction s as [|c s IH]; [constructor|]. cbn [flat_map].
    apply Forall_app. split; [apply json_escape_no_control|exact IH].
  - intros Hs. unfold json_string. do 2 f_equal.
    induction s as [|c s IH]; [reflexivity|].
    cbn [forallb] in Hs. apply andb_true_iff in Hs as [Hc Hs].
    cbn [flat_map]. rewrite json_escape_plain, IH by assumption. reflexivity.
Qed.

Lemma json_string_keeps_text_witness :
  json_string (lit "Jo" ++ [227] ++ lit "o & C" ++ [237] ++ lit "a, Ltda.") =
    [34] ++ (lit "Jo" ++ [227] ++ lit "o & C" ++ [237] ++ lit "a, Ltda.") ++ [34].
Proof.
  apply (proj2 (json_string_keeps_text _)). reflexivity.
Defined.

(** ** Fields beyond the limit *)

Section LongField.
Context `{Interpreter} `{Sniffer}.

(** X14.  A field longer than 131072 characters stops the run: when,
    after any number of well-formed lines, a line starts with a plain
    field that long, [main] returns 3, prints the reader's message behind
    [Erro:], and changes no file. *)
Theorem long_field_exits_3 (argv : list (list Z)) (input_csv output_json : list Z) (w : world)
    (d : Z) (eol : list Z) (rows : list (list csv_field)) (f rest : list Z) :
  arguments argv = Some (input_csv, output_json) ->
  fs w !! Path input_csv = Some (File (csv_text d eol rows ++ f ++ rest)) ->
  delimiter_of (csv_text d eol rows ++ f ++ rest) = d ->
  In eol line_ends -> Forall (row_written d) rows ->
  plain d f = true -> field_limit < Z.of_nat (length f) ->
  exists w',
    main argv w = (Val 3, w') /\
    fs w' = fs w /\
    stdout w' = stdout w ++ [lit "Erro: field larger than field limit (131072)"].
Proof.
  intros Ha E Hd Heol Hrows Hf Hlen.
  destruct (delimiter_of_usable (csv_text d eol rows ++ f ++ rest)) as [Hn Hq].
  rewrite Hd in Hn, Hq.
  assert (Hhead : eol = [13] -> head (f ++ rest) <> Some 10).
  { intros _. pose proof (plain_no_newline d f Hf) as Hp.
    destruct f as [|c f']; [cbn [length] in Hlen; unfold field_limit in Hlen; lia|].
    inversion Hp as [|? ? Hc _]; subst. cbn. intros [= ->]. discriminate. }
  pose proof (reader_rows_prefix d Hn Hq eol rows (f ++ rest) Heol Hrows Hhead) as Er.
  rewrite (reader_rows_long d f rest Hf Hlen) in Er. cbn [fst snd] in Er.
  fold (csv_reader (csv_text d eol rows ++ f ++ rest) d) in Er.
  destruct (carregar_file input_csv
              (match argv with [_; _; _; c] => c | _ => DEFAULT_CLASS end) _ (fs w) E)
    as (docs & _ & Hrun).
  destruct (Hrun w eq_refl) as (w1 & [F1 O1] & Ecar).
  rewrite Hd in Ecar. unfold DictReader in Ecar. rewrite Er in Ecar.
  assert (Ecar' : carregar input_csv
                    (match argv with [_; _; _; c] => c | _ => DEFAULT_CLASS end) w =
                  (Raise (CsvError (lit "field larger than field limit (131072)")), w1))
    by (destruct (map (map field_value) rows ++ []); exact Ecar).
  eexists. rewrite main_arguments, Ha.
  rewrite (run_raises _ output_json _ _ _ _ Ecar').
  split; [reflexivity|]. cbn [fs stdout add_stdout]. rewrite O1. auto.
Qed.

End LongField.

Lemma long_field_exits_3_witness :
  exists w',
    main [lit "main.py"; lit "longo.csv"; lit "out.json"] long_world = (Val 3, w') /\
    fs w' = fs long_world.
Proof.
  destruct (long_field_exits_3 [lit "main.py"; lit "longo.csv"; lit "out.json"]
              (lit "longo.csv") (lit "out.json") long_world 59 [10]
              [[Unquoted (lit "cedente"); Unquoted (lit "valor")]] long_field (lit ";1" ++ [10]))
    as (w' & E & Hfs & _).
  - reflexivity.
  - reflexivity.
  - vm_compute. reflexivity.
  - left. reflexivity.
  - repeat constructor; try discriminate; vm_compute; discriminate.
  - vm_compute. reflexivity.
  - unfold long_field. rewrite repeat_length, Z2Nat.id by discriminate. reflexivity.
  - exists w'. auto.
Defined.

(** ** Digits of other scripts *)




Lemma decimal_in_range zeros c v : decimal_in zeros c = Some v -> 0 <= v <= 9.
Proof.
  induction zeros as [|z zeros IH]; cbn [decimal_in]; [discriminate|].
  destruct (in_range z (z + 9) c) eqn:E; [|exact IH].
  apply in_range_spec in E. intros [= <-]. lia.
Qed.

Section UnicodeYear.
Context `{Interpreter}.




End UnicodeYear.


(** ** What [carregar] raises *)






Section Failures.
Context `{Interpreter} `{Sniffer}.


End Failures.

